(** * start-fastapi: the CRUD handlers of [app/main.py] and the
      validation models of [app/models.py], as a shallow embedding.

    Python [int] is [Z]; [str] holding user data is [string] where only
    equality matters and a list of Unicode code points where characters are
    counted or matched (the [Feedback] and [Contact] fields).  The process-wide
    [database] object is a value of type [Tables] threaded through every
    handler; what the driver does on its own (a lost connection, a refused
    statement) is the [fault] argument of the two gateway calls. *)

From Stdlib Require Import ZArith String Ascii List Bool Lia.
From stdpp Require Import base option gmap strings list.

Local Open Scope string_scope.
Local Open Scope Z_scope.

(** ** Python values and exceptions *)

(** The two exception classes the handlers tell apart.  [HTTPException] is a
    subclass of [Exception]: a clause [except Exception] catches both. *)
Inductive exn : Type :=
| HTTPException (status_code : Z) (detail : string)
| Exception (msg : string).

(** [str(e)] *)
Definition str (e : exn) : string :=
  match e with
  | HTTPException c d => d
  | Exception m => m
  end.

Inductive outcome (A : Type) : Type :=
| Return (a : A)
| Raise (e : exn).
Arguments Return {A} a.
Arguments Raise {A} e.

Definition bind {A B} (m : outcome A) (k : A -> outcome B) : outcome B :=
  match m with
  | Return a => k a
  | Raise e => Raise e
  end.

Notation "x ⇐ m ; k" := (bind m (fun x => k))
  (at level 100, m at next level, right associativity, only parsing).

(** [try: body  except HTTPException as he: raise he
     except Exception as e: raise HTTPException(500, prefix + str(e))] *)
Definition reraise_http_else_500 {A} (prefix : string) (body : outcome A) : outcome A :=
  match body with
  | Return a => Return a
  | Raise (HTTPException c d) => Raise (HTTPException c d)
  | Raise (Exception m) => Raise (HTTPException 500 (prefix +:+ str (Exception m)))
  end.

(** [try: body  except Exception as e: raise HTTPException(500, prefix + str(e))] *)
Definition any_exception_500 {A} (prefix : string) (body : outcome A) : outcome A :=
  match body with
  | Return a => Return a
  | Raise e => Raise (HTTPException 500 (prefix +:+ str e))
  end.

(** A column value of a fetched row. *)
Inductive value : Type :=
| VInt (n : Z)
| VStr (s : string)
| VBool (b : bool).

(** A fetched row: the selected columns, in order, by name. *)
Definition Record := list (string * value).

Fixpoint getitem (r : Record) (key : string) : option value :=
  match r with
  | [] => None
  | (k, v) :: r' => if String.eqb k key then Some v else getitem r' key
  end.

(** [not result] on what [fetch_one] returned: [None] is falsy, and a row is
    falsy only when it has no column. *)
Definition not_record (result : option Record) : bool :=
  match result with
  | None => true
  | Some r => (Z.of_nat (length r) =? 0)
  end.

(** [not result] on what [execute] returned: [None] and the integer 0 are
    falsy, every other integer is truthy. *)
Definition not_int (result : option Z) : bool :=
  match result with
  | None => true
  | Some n => (n =? 0)
  end.

(** ** app/models.py: the user and todo models *)

Module UserBase.
Record t := mk { username : string; email : string }.
End UserBase.

(** [class UserCreate(UserBase): pass] *)
Module UserCreate.
Definition t := UserBase.t.
Definition mk := UserBase.mk.
Definition username := UserBase.username.
Definition email := UserBase.email.
End UserCreate.

Module UserReturn.
Record t := mk { id : Z; username : string; email : string }.

(** [UserReturn(id=i, username=u, email=e)]: the constructor validates its
    keyword arguments; [id] must be an integer. *)
Definition init (i : option Z) (u e : string) : outcome t :=
  match i with
  | Some n => Return (mk n u e)
  | None => Raise (Exception "1 validation error for UserReturn")
  end.

(** [UserReturn(id=i, **user.model_dump())] *)
Definition of_dump (i : option Z) (user : UserCreate.t) : outcome t :=
  init i (UserBase.username user) (UserBase.email user).
End UserReturn.

Module Todo.
Record t := mk { title : string; description : string; is_complited : bool }.
End Todo.

Module TodoReturn.
Record t := mk { id : Z; title : string; description : string; is_complited : bool }.

Definition init (i : option Z) (ti de : string) (c : bool) : outcome t :=
  match i with
  | Some n => Return (mk n ti de c)
  | None => Raise (Exception "1 validation error for TodoReturn")
  end.

(** [TodoReturn(id=i, **todo.model_dump())] *)
Definition of_dump (i : option Z) (todo : Todo.t) : outcome t :=
  init i (Todo.title todo) (Todo.description todo) (Todo.is_complited todo).
End TodoReturn.

(** ** The storage gateway

    The relational store behind [database]: the two tables keyed by their
    primary key [id], and the sequence each table draws new ids from. *)
Record Tables := mkTables {
  users : gmap Z UserBase.t;
  users_id_seq : Z;
  todos : gmap Z Todo.t;
  todos_id_seq : Z
}.

(** The six statements [main.py] passes to [database.execute], each with its
    bound [values]. *)
Inductive statement : Type :=
| INSERT_users (username email : string)
| UPDATE_users (user_id : Z) (username email : string)
| DELETE_users (user_id : Z)
| INSERT_todos (title description : string) (is_complited : bool)
| UPDATE_todos (todo_id : Z) (title description : string) (is_complited : bool)
| DELETE_todos (todo_id : Z).

(** The two queries [main.py] passes to [database.fetch_one]. *)
Inductive query : Type :=
| SELECT_users (user_id : Z)
| SELECT_todos (todo_id : Z).

Definition set_users (f : gmap Z UserBase.t -> gmap Z UserBase.t) (db : Tables) : Tables :=
  mkTables (f (users db)) (users_id_seq db) (todos db) (todos_id_seq db).

Definition set_todos (f : gmap Z Todo.t -> gmap Z Todo.t) (db : Tables) : Tables :=
  mkTables (users db) (users_id_seq db) (f (todos db)) (todos_id_seq db).

Definition next_users_id (db : Tables) : Tables :=
  mkTables (users db) (users_id_seq db + 1) (todos db) (todos_id_seq db).

Definition next_todos_id (db : Tables) : Tables :=
  mkTables (users db) (users_id_seq db) (todos db) (todos_id_seq db + 1).

Definition unique_violation : exn :=
  Exception "duplicate key value violates unique constraint".

(** [await database.execute(query, values)]: runs one statement and returns
    the first column of the first returned row ([RETURNING id]), or [None]
    when the statement returned no row.  An INSERT draws the id from the
    table's sequence (the sequence moves on even when the insertion is
    refused); UPDATE and DELETE act on the row whose id is bound, if any.
    [fault] is the error of the driver itself, raised before the statement
    takes effect. *)
Definition execute (fault : option string) (db : Tables) (st : statement)
  : Tables * outcome (option Z) :=
  match fault with
  | Some msg => (db, Raise (Exception msg))
  | None =>
    match st with
    | INSERT_users u e =>
        let i := users_id_seq db in
        match users db !! i with
        | Some _ => (next_users_id db, Raise unique_violation)
        | None => (next_users_id (set_users (insert i (UserBase.mk u e)) db), Return (Some i))
        end
    | UPDATE_users i u e =>
        match users db !! i with
        | Some _ => (set_users (insert i (UserBase.mk u e)) db, Return (Some i))
        | None => (db, Return None)
        end
    | DELETE_users i =>
        match users db !! i with
        | Some _ => (set_users (delete i) db, Return (Some i))
        | None => (db, Return None)
        end
    | INSERT_todos t d c =>
        let i := todos_id_seq db in
        match todos db !! i with
        | Some _ => (next_todos_id db, Raise unique_violation)
        | None => (next_todos_id (set_todos (insert i (Todo.mk t d c)) db), Return (Some i))
        end
    | UPDATE_todos i t d c =>
        match todos db !! i with
        | Some _ => (set_todos (insert i (Todo.mk t d c)) db, Return (Some i))
        | None => (db, Return None)
        end
    | DELETE_todos i =>
        match todos db !! i with
        | Some _ => (set_todos (delete i) db, Return (Some i))
        | None => (db, Return None)
        end
    end
  end.

Definition users_row (i : Z) (u : UserBase.t) : Record :=
  [("id", VInt i); ("username", VStr (UserBase.username u)); ("email", VStr (UserBase.email u))].

Definition todos_row (i : Z) (t : Todo.t) : Record :=
  [("id", VInt i); ("title", VStr (Todo.title t));
   ("description", VStr (Todo.description t)); ("is_complited", VBool (Todo.is_complited t))].

(** [await database.fetch_one(query, values)]: the first row of the result,
    or [None]. *)
Definition fetch_one (fault : option string) (db : Tables) (q : query)
  : outcome (option Record) :=
  match fault with
  | Some msg => Raise (Exception msg)
  | None =>
    match q with
    | SELECT_users i => Return (users_row i <$> users db !! i)
    | SELECT_todos i => Return (todos_row i <$> todos db !! i)
    end
  end.

(** ** app/main.py: the handlers

    Every handler takes the state of the store and returns the new state
    with what it returned or raised. *)

(** [GET /]: the dict literal the handler returns (the call of
    [logger.info] leaves no trace in the response). *)
Definition read_root : list (string * string) :=
  [("message: ", "Hello, World!")].

(** [d.get(key)] on a dict literal. *)
Fixpoint dict_get (d : list (string * string)) (key : string) : option string :=
  match d with
  | [] => None
  | (k, v) :: d' => if String.eqb k key then Some v else dict_get d' key
  end.

Definition create_user (fault : option string) (db : Tables) (user : UserCreate.t)
  : Tables * outcome UserReturn.t :=
  let '(db', r) := execute fault db
                     (INSERT_users (UserBase.username user) (UserBase.email user)) in
  (db', any_exception_500 "Ошибка при создании пользователя: "
          (user_id ⇐ r;
           UserReturn.of_dump user_id user)).

Definition get_user (fault : option string) (db : Tables) (user_id : Z)
  : outcome UserReturn.t :=
  match fetch_one fault db (SELECT_users user_id) with
  | Raise e => Raise (HTTPException 500 ("Ошибка получения пользователя: " +:+ str e))
  | Return result =>
      if not_record result then
        Raise (HTTPException 404 "Пользователь с указанным ID не найден")
      else
        match result with
        | Some row =>
            match getitem row "id", getitem row "username", getitem row "email" with
            | Some (VInt i), Some (VStr u), Some (VStr e) => UserReturn.init (Some i) u e
            | _, _, _ => Raise (Exception "KeyError")
            end
        | None => Raise (Exception "TypeError")
        end
  end.

Definition update_user (fault : option string) (db : Tables) (user_id : Z) (user : UserCreate.t)
  : Tables * outcome UserReturn.t :=
  let '(db', r) := execute fault db
                     (UPDATE_users user_id (UserBase.username user) (UserBase.email user)) in
  (db', reraise_http_else_500 "Ошибка обновления пользователя: "
          (result ⇐ r;
           if not_int result then
             Raise (HTTPException 404 "Пользователь с указанным ID не найден")
           else UserReturn.of_dump result user)).

(** The body of a successful DELETE: [{"message": text}]. *)
Definition delete_user (fault : option string) (db : Tables) (user_id : Z)
  : Tables * outcome (list (string * string)) :=
  let '(db', r) := execute fault db (DELETE_users user_id) in
  (db', reraise_http_else_500 "Ошибка удаления пользователя: "
          (deleted_id ⇐ r;
           if not_int deleted_id then
             Raise (HTTPException 404 "Пользователь с указанным ID не найден")
           else Return [("message", "Пользователь успешно удален")])).

Definition create_todo (fault : option string) (db : Tables) (todo : Todo.t)
  : Tables * outcome TodoReturn.t :=
  let '(db', r) := execute fault db
                     (INSERT_todos (Todo.title todo) (Todo.description todo)
                                   (Todo.is_complited todo)) in
  (db', any_exception_500 "Ошибка при создании задачи: "
          (todo_id ⇐ r;
           TodoReturn.of_dump todo_id todo)).

Definition get_todo (fault : option string) (db : Tables) (todo_id : Z)
  : outcome TodoReturn.t :=
  match fetch_one fault db (SELECT_todos todo_id) with
  | Raise e => Raise (HTTPException 500 ("Ошибка получения задачи: " +:+ str e))
  | Return result =>
      if not_record result then
        Raise (HTTPException 404 "Задача с указанным ID не найдена")
      else
        match result with
        | Some row =>
            match getitem row "id", getitem row "title",
                  getitem row "description", getitem row "is_complited" with
            | Some (VInt i), Some (VStr t), Some (VStr d), Some (VBool c) =>
                TodoReturn.init (Some i) t d c
            | _, _, _, _ => Raise (Exception "KeyError")
            end
        | None => Raise (Exception "TypeError")
        end
  end.

Definition update_todo (fault : option string) (db : Tables) (todo_id : Z) (todo : Todo.t)
  : Tables * outcome TodoReturn.t :=
  let '(db', r) := execute fault db
                     (UPDATE_todos todo_id (Todo.title todo) (Todo.description todo)
                                   (Todo.is_complited todo)) in
  (db', reraise_http_else_500 "Ошибка обновления задачи: "
          (result ⇐ r;
           if not_int result then
             Raise (HTTPException 404 "Задача с указанным ID не найдена")
           else TodoReturn.of_dump result todo)).

Definition delete_todo (fault : option string) (db : Tables) (todo_id : Z)
  : Tables * outcome (list (string * string)) :=
  let '(db', r) := execute fault db (DELETE_todos todo_id) in
  (db', reraise_http_else_500 "Ошибка удаления пользователя: "
          (deleted_todo ⇐ r;
           if not_int deleted_todo then
             Raise (HTTPException 404 "Задача с указанным id не найдена")
           else Return [("message", "Задача успешно удалена")])).

(** The two not-found responses. *)
Definition user_not_found {A} : outcome A :=
  Raise (HTTPException 404 "Пользователь с указанным ID не найден").

Definition todo_not_found {A} : outcome A :=
  Raise (HTTPException 404 "Задача с указанным ID не найдена").

(** ** The HTTP surface of the user endpoints

    FastAPI validates the JSON body against the annotated model before it
    calls the handler, answers 422 with the list of field errors when the body
    does not validate, and turns a raised [HTTPException] into its status code
    and detail. *)

Inductive json : Type :=
| JNull
| JBool (b : bool)
| JInt (n : Z)
| JStr (s : string).

Record error_detail := mkError { loc : string; type : string }.

Inductive validated (A : Type) : Type :=
| Valid (a : A)
| Invalid (errors : list error_detail).
Arguments Valid {A} a.
Arguments Invalid {A} errors.

Definition errors_of {A} (v : validated A) : list error_detail :=
  match v with
  | Valid _ => []
  | Invalid es => es
  end.

(** A required field annotated [str]: present, and a JSON string of any
    length. *)
Definition str_field (body : gmap string json) (name : string) : validated string :=
  match body !! name with
  | None => Invalid [mkError name "missing"]
  | Some (JStr s) => Valid s
  | Some _ => Invalid [mkError name "string_type"]
  end.

(** Validation of a body against [UserCreate]: the two fields declared by
    [UserBase], every failing field reported. *)
Definition UserCreate_validate (body : gmap string json) : validated UserCreate.t :=
  match str_field body "username", str_field body "email" with
  | Valid u, Valid e => Valid (UserBase.mk u e)
  | vu, ve => Invalid (errors_of vu ++ errors_of ve)%list
  end.

Inductive response (A : Type) : Type :=
| Content (status_code : Z) (content : A)
| Detail (status_code : Z) (detail : string)
| Unprocessable (errors : list error_detail).
Arguments Content {A} status_code content.
Arguments Detail {A} status_code detail.
Arguments Unprocessable {A} errors.

Definition respond {A} (r : outcome A) : response A :=
  match r with
  | Return a => Content 200 a
  | Raise (HTTPException c d) => Detail c d
  | Raise (Exception _) => Detail 500 "Internal Server Error"
  end.

(** [POST /users/] *)
Definition post_users (fault : option string) (db : Tables) (body : gmap string json)
  : Tables * response UserReturn.t :=
  match UserCreate_validate body with
  | Invalid es => (db, Unprocessable es)
  | Valid user => let '(db', r) := create_user fault db user in (db', respond r)
  end.

(** [PUT /users/{user_id}] *)
Definition put_users (fault : option string) (db : Tables) (user_id : Z)
    (body : gmap string json) : Tables * response UserReturn.t :=
  match UserCreate_validate body with
  | Invalid es => (db, Unprocessable es)
  | Valid user => let '(db', r) := update_user fault db user_id user in (db', respond r)
  end.

(** ** Text as code points, and the regular expressions of [models.py]

    The fields of [Contact] and [Feedback] are measured and matched character
    by character: such a [str] is the list of its Unicode code points.  A
    literal of the source file is written as its UTF-8 text and decoded by
    [chars]. *)

Fixpoint utf8_decode (bs : list Z) : list Z :=
  match bs with
  | [] => []
  | b0 :: t0 =>
      if b0 <? 128 then b0 :: utf8_decode t0
      else if b0 <? 224 then
        match t0 with
        | b1 :: t1 => ((b0 mod 32) * 64 + b1 mod 64) :: utf8_decode t1
        | _ => []
        end
      else if b0 <? 240 then
        match t0 with
        | b1 :: b2 :: t2 =>
            ((b0 mod 16) * 4096 + (b1 mod 64) * 64 + b2 mod 64) :: utf8_decode t2
        | _ => []
        end
      else
        match t0 with
        | b1 :: b2 :: b3 :: t3 =>
            ((b0 mod 8) * 262144 + (b1 mod 64) * 4096 + (b2 mod 64) * 64 + b3 mod 64)
              :: utf8_decode t3
        | _ => []
        end
  end.

Definition chars (s : string) : list Z :=
  utf8_decode (map (fun a => Z.of_N (N_of_ascii a)) (list_ascii_of_string s)).

(** Simple lower-case mapping, written out for Basic Latin and for the
    Cyrillic block U+0400-U+045F.  It is exact wherever the result is one of
    the letters U+0430-U+044F the patterns are made of: only the capitals
    U+0410-U+042F and these letters themselves are mapped there. *)
Definition unicode_tolower (c : Z) : Z :=
  if (65 <=? c) && (c <=? 90) then c + 32
  else if (1040 <=? c) && (c <=? 1071) then c + 32
  else if (1024 <=? c) && (c <=? 1039) then c + 80
  else c.

(** The characters the [re] module treats as equal to a lower-case Cyrillic
    letter under IGNORECASE besides its upper case: the historic letter
    variants U+1C80-U+1C86. *)
Definition extra_cases (c : Z) : list Z :=
  if c =? 1074 then [7296]            (* в *)
  else if c =? 1076 then [7297]       (* д *)
  else if c =? 1086 then [7298]       (* о *)
  else if c =? 1089 then [7299]       (* с *)
  else if c =? 1090 then [7300; 7301] (* т *)
  else if c =? 1098 then [7302]       (* ъ *)
  else [].

Definition elem (x : Z) (l : list Z) : bool := existsb (Z.eqb x) l.

(** A literal of the pattern against a character of the text. *)
Definition lit_match (ic : bool) (c x : Z) : bool :=
  if ic then
    let lo := unicode_tolower c in
    elem (unicode_tolower x) (lo :: extra_cases lo)
  else x =? c.

Definition range_list (lo hi : Z) : list Z :=
  map (fun k => lo + Z.of_nat k) (seq 0 (Z.to_nat (hi - lo + 1))).

(** A class [lo-hi]: under IGNORECASE the class is closed under the case
    equivalences first, and the lower-cased character is looked up in it. *)
Definition range_match (ic : bool) (lo hi x : Z) : bool :=
  if ic then
    elem (unicode_tolower x)
         (flat_map (fun i => unicode_tolower i :: extra_cases (unicode_tolower i))
                   (range_list lo hi))
  else (lo <=? x) && (x <=? hi).

(** The first code point of every block of ten decimal digits of Unicode
    15.0 (general category Nd). *)
Definition Nd_zeros : list Z :=
  [48; 1632; 1776; 1984; 2406; 2534; 2662; 2790; 2918; 3046; 3174; 3302; 3430;
   3558; 3664; 3792; 3872; 4160; 4240; 6112; 6160; 6470; 6608; 6784; 6800; 6992;
   7088; 7232; 7248; 42528; 43216; 43264; 43472; 43504; 43600; 44016; 65296;
   66720; 68912; 69734; 69872; 69942; 70096; 70384; 70736; 70864; 71248; 71360;
   71472; 71904; 72016; 72784; 73040; 73120; 73552; 92768; 92864; 93008;
   120782; 120792; 120802; 120812; 120822; 123200; 123632; 124144; 125264;
   130032].

(** The decimal digits of Unicode 15.0.  Which characters [\d] takes for
    decimal digits is a table of the pattern engine and grows with its
    Unicode version, so the pattern below takes the class as an argument;
    this table is one such class. *)
Definition is_digit (x : Z) : bool :=
  existsb (fun z => (z <=? x) && (x <=? z + 9)) Nd_zeros.

Inductive regex : Type :=
| Empty
| Lit (c : Z)
| Range (lo hi : Z)
| Class (member : Z -> bool)
| Bol
| Eol
| Seq (r1 r2 : regex)
| Alt (r1 r2 : regex)
| Repeat (lo hi : nat) (r : regex).

(** A position of the matcher: how many characters of the text are behind
    it, and the text still ahead. *)
Definition cursor : Type := nat * list Z.

Definition advance (ok : Z -> bool) (st : cursor) : list cursor :=
  match snd st with
  | x :: s' => if ok x then [(S (fst st), s')] else []
  | [] => []
  end.

Fixpoint exactly (n : nat) (step : cursor -> list cursor) (st : cursor) : list cursor :=
  match n with
  | O => [st]
  | S n' => flat_map (exactly n' step) (step st)
  end.

Fixpoint upto (n : nat) (step : cursor -> list cursor) (st : cursor) : list cursor :=
  match n with
  | O => [st]
  | S n' => (flat_map (upto n' step) (step st) ++ [st])%list
  end.

(** Every way the expression matches at a cursor, preferred first: the left
    branch of an alternation before the right one, more repetitions before
    fewer.  [$] holds at the end of the text only. *)
Fixpoint run (ic : bool) (r : regex) : cursor -> list cursor :=
  match r with
  | Empty => fun st => [st]
  | Lit c => advance (lit_match ic c)
  | Range lo hi => advance (range_match ic lo hi)
  | Class member => advance member
  | Bol => fun st => match fst st with O => [st] | S _ => [] end
  | Eol => fun st => match snd st with [] => [st] | _ :: _ => [] end
  | Seq r1 r2 => fun st => flat_map (run ic r2) (run ic r1 st)
  | Alt r1 r2 => fun st => (run ic r1 st ++ run ic r2 st)%list
  | Repeat lo hi r' => fun st =>
      flat_map (upto (hi - lo) (run ic r')) (exactly lo (run ic r') st)
  end.

(** Is there a match starting at this cursor or at a later one. *)
Fixpoint search_from (ic : bool) (r : regex) (pos : nat) (s : list Z) : bool :=
  match run ic r (pos, s) with
  | _ :: _ => true
  | [] =>
      match s with
      | [] => false
      | _ :: s' => search_from ic r (S pos) s'
      end
  end.

Definition search (ic : bool) (r : regex) (s : list Z) : bool := search_from ic r 0 s.

(** [re.findall]: the matched pieces, left to right, not overlapping.  After
    a match of [n] characters the scan resumes behind it ([skip] counts the
    characters still to pass over). *)
Fixpoint findall_from (ic : bool) (r : regex) (pos skip : nat) (s : list Z)
  {struct s} : list (list Z) :=
  match skip with
  | S k =>
      match s with
      | [] => []
      | _ :: s' => findall_from ic r (S pos) k s'
      end
  | O =>
      match run ic r (pos, s) with
      | (pos', _) :: _ =>
          let n := (pos' - pos)%nat in
          take n s :: match s with
                      | [] => []
                      | _ :: s' => findall_from ic r (S pos) (n - 1) s'
                      end
      | [] =>
          match s with
          | [] => []
          | _ :: s' => findall_from ic r (S pos) 0 s'
          end
      end
  end.

Definition findall (ic : bool) (r : regex) (s : list Z) : list (list Z) :=
  findall_from ic r 0 0 s.

(** A run of literal characters. *)
Definition word (w : list Z) : regex :=
  fold_right (fun c r => Seq (Lit c) r) Empty w.

(** ** app/models.py: [Contact] and [Feedback] *)

Module Contact.
(** [r'^\d{7,15}$'], where [digit] is the class [\d] of the pattern
    engine: the decimal digits of its Unicode tables, the ten ASCII digits
    among them. *)
Definition phone_pattern (digit : Z -> bool) : regex :=
  Seq Bol (Seq (Repeat 7 15 (Class digit)) Eol).

(** The field [phone: str | None = Field(default=None, pattern=...)]:
    [None] stands for a missing or null phone, which is kept as it is; a
    string has to match the pattern somewhere, and the pattern is anchored
    at both ends. *)
Definition phone (digit : Z -> bool) (v : option (list Z))
  : validated (option (list Z)) :=
  match v with
  | None => Valid None
  | Some s =>
      if search false (phone_pattern digit) s then Valid (Some s)
      else Invalid [mkError "phone" "string_pattern_mismatch"]
  end.
End Contact.

Module Feedback.
(** The three stems of the pattern. *)
Definition stems : list (list Z) := [chars "редиск"; chars "бяк"; chars "козявк"].

Definition cyr_a : Z := Eval cbv in hd 0 (chars "а").
Definition cyr_ya : Z := Eval cbv in hd 0 (chars "я").

(** [r'(?i)редиск[а-я]|бяк[а-я]|козявк[а-я]'] *)
Definition pattern : regex :=
  Alt (Seq (word (chars "редиск")) (Range cyr_a cyr_ya))
      (Alt (Seq (word (chars "бяк")) (Range cyr_a cyr_ya))
           (Seq (word (chars "козявк")) (Range cyr_a cyr_ya))).

Definition validate_message (data : list Z) : outcome (list Z) :=
  match findall true pattern data with
  | _ :: _ => Raise (Exception "Использование недопустимых слов")
  | [] => Return data
  end.

(** The field [message: str = Field(min_length=10, max_length=500)] with
    its after-validator: the length bounds first, then [validate_message],
    whose [ValueError] becomes a validation error of its own type. *)
Definition message (data : list Z) : validated (list Z) :=
  if (length data <? 10)%nat then Invalid [mkError "message" "string_too_short"]
  else if (500 <? length data)%nat then Invalid [mkError "message" "string_too_long"]
  else match validate_message data with
       | Return d => Valid d
       | Raise _ => Invalid [mkError "message" "value_error"]
       end.
End Feedback.


(** ** The notions the statements below are written in *)

(** Two characters equal up to case, as the pattern sees them. *)
Definition same_letter (c x : Z) : Prop := lit_match true c x = true.

(** A spelling of one of the block-listed stems, in any case. *)
Definition is_stem (w : list Z) : Prop :=
  exists st, In st Feedback.stems /\ Forall2 same_letter st w.

(** The message contains a block-listed stem. *)
Definition contains_stem (data : list Z) : Prop :=
  exists pre w post, data = (pre ++ w ++ post)%list /\ is_stem w.

(** A Cyrillic letter of the class [[а-я]] taken without regard to case:
    U+0410-U+044F and the variants U+1C80-U+1C86. *)
Definition cyr_letter (c : Z) : Prop :=
  1040 <= c <= 1103 \/ 7296 <= c <= 7302.

(** The message contains a block-listed stem with a letter right behind it. *)
Definition stem_then_letter (data : list Z) : Prop :=
  exists pre w c post, data = (pre ++ w ++ c :: post)%list /\ is_stem w /\ cyr_letter c.

(** The whole text is between 7 and 15 decimal digits. *)
Definition seven_to_fifteen_digits (digit : Z -> bool) (s : list Z) : Prop :=
  (7 <= length s <= 15)%nat /\ Forall (fun x => digit x = true) s.

(** The ten ASCII digits are decimal digits of the class. *)
Definition has_ascii_digits (digit : Z -> bool) : Prop :=
  forall x, 48 <= x <= 57 -> digit x = true.

(** Modelled from the spec: the schema of the two tables is not in the
    source.  The spec gives [id] as an integer primary key assigned by the
    storage, which is the 32-bit [integer] of PostgreSQL. *)
Definition id_column_min : Z := -2147483648.

Definition id_column_max : Z := 2147483647.

Definition in_id_column (i : Z) : bool :=
  (id_column_min <=? i) && (i <=? id_column_max).

(** What the driver raises by itself for a statement whose [WHERE id = :id]
    is bound to [i]: it encodes the argument for the type of the column before
    the statement is sent, and refuses an integer that does not fit (the text
    of its error is abridged).  The path parameter is a Python [int], which
    has no bound. *)
Definition id_fault (i : Z) : option string :=
  if in_id_column i then None
  else Some "invalid input for query argument: value out of int32 range".

(** An empty store whose sequences start at 1, and a first user. *)
Definition db0 : Tables := mkTables ∅ 1 ∅ 1.

Definition alice : UserCreate.t := UserBase.mk "alice" "a@example.com".

(** A request body whose username is the empty string. *)
Definition nameless : gmap string json :=
  {[ "username" := JStr EmptyString; "email" := JStr "a@example.com" ]}.

(** ** The HTTP surface of the todo endpoints *)

Definition ascii_lower (a : ascii) : ascii :=
  let n := N_of_ascii a in
  if ((65 <=? n) && (n <=? 90))%N then ascii_of_N (n + 32) else a.

Fixpoint lower (s : string) : string :=
  match s with
  | EmptyString => EmptyString
  | String a s' => String (ascii_lower a) (lower s')
  end.

Fixpoint mem_string (x : string) (l : list string) : bool :=
  match l with
  | [] => false
  | y :: l' => String.eqb x y || mem_string x l'
  end.

(** The strings a field annotated [bool] takes for a boolean, whatever
    their case (the two digits apart). *)
Definition str_as_bool (s : string) : option bool :=
  if String.eqb s "0" || mem_string (lower s) ["f"; "n"; "no"; "off"; "false"] then Some false
  else if String.eqb s "1" || mem_string (lower s) ["t"; "y"; "on"; "yes"; "true"] then Some true
  else None.

(** A field annotated [bool] with a default: the default when the field is
    missing; otherwise a boolean, or one of the integers and strings that
    stand for one. *)
Definition bool_field (body : gmap string json) (name : string) (default : bool)
  : validated bool :=
  match body !! name with
  | None => Valid default
  | Some (JBool b) => Valid b
  | Some (JInt n) =>
      if n =? 0 then Valid false
      else if n =? 1 then Valid true
      else Invalid [mkError name "bool_parsing"]
  | Some (JStr s) =>
      match str_as_bool s with
      | Some b => Valid b
      | None => Invalid [mkError name "bool_parsing"]
      end
  | Some JNull => Invalid [mkError name "bool_type"]
  end.

(** Validation of a body against [Todo]: [title] and [description] are
    required, [is_complited: bool = False]. *)
Definition Todo_validate (body : gmap string json) : validated Todo.t :=
  match str_field body "title", str_field body "description",
        bool_field body "is_complited" false with
  | Valid t, Valid d, Valid c => Valid (Todo.mk t d c)
  | vt, vd, vc => Invalid (errors_of vt ++ errors_of vd ++ errors_of vc)%list
  end.

(** [POST /todos/] *)
Definition post_todos (fault : option string) (db : Tables) (body : gmap string json)
  : Tables * response TodoReturn.t :=
  match Todo_validate body with
  | Invalid es => (db, Unprocessable es)
  | Valid todo => let '(db', r) := create_todo fault db todo in (db', respond r)
  end.

(** [PUT /todos/{todo_id}] *)
Definition put_todos (fault : option string) (db : Tables) (todo_id : Z)
    (body : gmap string json) : Tables * response TodoReturn.t :=
  match Todo_validate body with
  | Invalid es => (db, Unprocessable es)
  | Valid todo => let '(db', r) := update_todo fault db todo_id todo in (db', respond r)
  end.

(** The status code of a response. *)
Definition status {A} (r : response A) : Z :=
  match r with
  | Content c _ => c
  | Detail c _ => c
  | Unprocessable _ => 422
  end.

(** What a handler may raise: an [HTTPException] whose status is one of
    [codes], and nothing else. *)
Definition raises_only {A} (codes : list Z) (r : outcome A) : Prop :=
  match r with
  | Return _ => True
  | Raise (HTTPException c _) => In c codes
  | Raise (Exception _) => False
  end.

(** The tables and sequences a statement on users must leave alone, and the
    same for todos. *)
Definition same_todos (db db' : Tables) : Prop :=
  todos db' = todos db /\ todos_id_seq db' = todos_id_seq db.

Definition same_users (db db' : Tables) : Prop :=
  users db' = users db /\ users_id_seq db' = users_id_seq db.

(** * Properties *)

(** ** The gateway *)

Section Gateway.
Implicit Types (db : Tables) (i : Z).

Lemma execute_fault msg db st :
  execute (Some msg) db st = (db, Raise (Exception msg)).
Proof. reflexivity. Qed.

Lemma execute_update_users_hit db i row u e :
  users db !! i = Some row ->
  execute None db (UPDATE_users i u e)
  = (set_users (insert i (UserBase.mk u e)) db, Return (Some i)).
Proof. intros H. cbn. by rewrite H. Qed.

Lemma execute_update_users_miss db i u e :
  users db !! i = None ->
  execute None db (UPDATE_users i u e) = (db, Return None).
Proof. intros H. cbn. by rewrite H. Qed.

Lemma execute_delete_users_hit db i row :
  users db !! i = Some row ->
  execute None db (DELETE_users i) = (set_users (delete i) db, Return (Some i)).
Proof. intros H. cbn. by rewrite H. Qed.

Lemma execute_delete_users_miss db i :
  users db !! i = None ->
  execute None db (DELETE_users i) = (db, Return None).
Proof. intros H. cbn. by rewrite H. Qed.

Lemma execute_update_todos_hit db i row t d c :
  todos db !! i = Some row ->
  execute None db (UPDATE_todos i t d c)
  = (set_todos (insert i (Todo.mk t d c)) db, Return (Some i)).
Proof. intros H. cbn. by rewrite H. Qed.

Lemma execute_update_todos_miss db i t d c :
  todos db !! i = None ->
  execute None db (UPDATE_todos i t d c) = (db, Return None).
Proof. intros H. cbn. by rewrite H. Qed.

Lemma execute_delete_todos_hit db i row :
  todos db !! i = Some row ->
  execute None db (DELETE_todos i) = (set_todos (delete i) db, Return (Some i)).
Proof. intros H. cbn. by rewrite H. Qed.

Lemma execute_delete_todos_miss db i :
  todos db !! i = None ->
  execute None db (DELETE_todos i) = (db, Return None).
Proof. intros H. cbn. by rewrite H. Qed.

(** A statement returns an id only when the driver raised nothing. *)
Lemma execute_return_no_fault fault db st db' r :
  execute fault db st = (db', Return r) -> fault = None.
Proof. destruct fault; [discriminate | done]. Qed.

Lemma fetch_one_users db i :
  fetch_one None db (SELECT_users i) = Return (users_row i <$> users db !! i).
Proof. reflexivity. Qed.

Lemma fetch_one_todos db i :
  fetch_one None db (SELECT_todos i) = Return (todos_row i <$> todos db !! i).
Proof. reflexivity. Qed.
End Gateway.

(** ** The handlers, case by case *)

Lemma get_user_hit db i row :
  users db !! i = Some row ->
  get_user None db i
  = Return (UserReturn.mk i (UserBase.username row) (UserBase.email row)).
Proof. intros H. unfold get_user. rewrite fetch_one_users, H. reflexivity. Qed.

Lemma get_user_miss db i :
  users db !! i = None -> get_user None db i = user_not_found.
Proof. intros H. unfold get_user. rewrite fetch_one_users, H. reflexivity. Qed.

Lemma get_todo_miss db i :
  todos db !! i = None -> get_todo None db i = todo_not_found.
Proof. intros H. unfold get_todo. rewrite fetch_one_todos, H. reflexivity. Qed.

(** What a successful creation did. *)
Lemma create_user_return fault db user db' r :
  create_user fault db user = (db', Return r) ->
  users db' !! UserReturn.id r = Some user /\
  r = UserReturn.mk (UserReturn.id r) (UserBase.username user) (UserBase.email user).
Proof.
  destruct user as [u e]. unfold create_user.
  destruct fault as [msg|]; [discriminate|]. cbn.
  destruct (users db !! users_id_seq db) eqn:Hfree; cbn; [discriminate|].
  intros [= <- <-]. cbn. split; [apply lookup_insert_eq | reflexivity].
Qed.

(** What a successful update did. *)
Lemma update_user_return fault db i user db' r :
  update_user fault db i user = (db', Return r) ->
  i <> 0 /\ is_Some (users db !! i) /\ db' = set_users (insert i user) db /\
  r = UserReturn.mk i (UserBase.username user) (UserBase.email user).
Proof.
  destruct user as [u e]. unfold update_user.
  destruct fault as [msg|]; [discriminate|]. cbn.
  destruct (users db !! i) eqn:Hrow; cbn; [|discriminate].
  destruct (i =? 0) eqn:Hz; cbn; [discriminate|].
  intros [= <- <-]. apply Z.eqb_neq in Hz. eauto.
Qed.

Lemma update_todo_return fault db i todo db' r :
  update_todo fault db i todo = (db', Return r) ->
  i <> 0 /\ is_Some (todos db !! i) /\ db' = set_todos (insert i todo) db /\
  r = TodoReturn.mk i (Todo.title todo) (Todo.description todo) (Todo.is_complited todo).
Proof.
  destruct todo as [t d c]. unfold update_todo.
  destruct fault as [msg|]; [discriminate|]. cbn.
  destruct (todos db !! i) eqn:Hrow; cbn; [|discriminate].
  destruct (i =? 0) eqn:Hz; cbn; [discriminate|].
  intros [= <- <-]. apply Z.eqb_neq in Hz. eauto.
Qed.

(** What a successful deletion did. *)
Lemma delete_user_return fault db i db' body :
  delete_user fault db i = (db', Return body) ->
  i <> 0 /\ is_Some (users db !! i) /\ db' = set_users (delete i) db.
Proof.
  unfold delete_user.
  destruct fault as [msg|]; [discriminate|]. cbn.
  destruct (users db !! i) eqn:Hrow; cbn; [|discriminate].
  destruct (i =? 0) eqn:Hz; cbn; [discriminate|].
  intros [= <- <-]. apply Z.eqb_neq in Hz. eauto.
Qed.

(** ** Properties of the CRUD handlers *)

(** C1: for every user input, when [create_user] succeeds, the record it
    returns is the input fields with the assigned id, and [get_user] on that
    id, served by the store, returns the same record. *)
Theorem create_then_read fault db user db' r :
  create_user fault db user = (db', Return r) ->
  r = UserReturn.mk (UserReturn.id r) (UserBase.username user) (UserBase.email user)
  /\ get_user None db' (UserReturn.id r) = Return r.
Proof.
  intros H. apply create_user_return in H as [Hrow Hr].
  split; [exact Hr|]. rewrite (get_user_hit _ _ _ Hrow). by rewrite <- Hr.
Qed.

Lemma create_then_read_witness :
  create_user None db0 alice = (mkTables {[1 := alice]} 2 ∅ 1, Return (UserReturn.mk 1 "alice" "a@example.com"))
  /\ get_user None (mkTables {[1 := alice]} 2 ∅ 1) 1
     = Return (UserReturn.mk 1 "alice" "a@example.com").
Proof.
  assert (H : create_user None db0 alice
              = (mkTables {[1 := alice]} 2 ∅ 1, Return (UserReturn.mk 1 "alice" "a@example.com")))
    by reflexivity.
  split; [exact H|]. exact (proj2 (create_then_read None db0 alice _ _ H)).
Defined.

(** On an id with no matching row, reading, updating and deleting a user or
    a todo, when the driver raises nothing, each raise the 404 exception and
    leave the store as it was. *)
Lemma missing_row_served db (i : Z) (user : UserCreate.t) (todo : Todo.t) :
  (users db !! i = None ->
     get_user None db i = user_not_found
     /\ update_user None db i user = (db, user_not_found)
     /\ delete_user None db i = (db, user_not_found))
  /\ (todos db !! i = None ->
     get_todo None db i = todo_not_found
     /\ update_todo None db i todo = (db, todo_not_found)
     /\ delete_todo None db i
        = (db, Raise (HTTPException 404 "Задача с указанным id не найдена"))).
Proof.
  split; intros H.
  - split; [by apply get_user_miss|].
    unfold update_user, delete_user.
    rewrite execute_update_users_miss, execute_delete_users_miss by done. done.
  - split; [by apply get_todo_miss|].
    unfold update_todo, delete_todo.
    rewrite execute_update_todos_miss, execute_delete_todos_miss by done. done.
Qed.

(** C2 fails as stated: no row has the id 2147483648, which does not fit the
    id column; the driver refuses it, and reading, updating and deleting a
    user or a todo with this id each raise the 500 exception, not the 404
    one. *)
Lemma id_beyond_column_is_500 :
  users db0 !! 2147483648 = None /\ todos db0 !! 2147483648 = None
  /\ get_user (id_fault 2147483648) db0 2147483648
     = Raise (HTTPException 500
         "Ошибка получения пользователя: invalid input for query argument: value out of int32 range")
  /\ snd (update_user (id_fault 2147483648) db0 2147483648 alice)
     = Raise (HTTPException 500
         "Ошибка обновления пользователя: invalid input for query argument: value out of int32 range")
  /\ snd (delete_user (id_fault 2147483648) db0 2147483648)
     = Raise (HTTPException 500
         "Ошибка удаления пользователя: invalid input for query argument: value out of int32 range")
  /\ get_todo (id_fault 2147483648) db0 2147483648
     = Raise (HTTPException 500
         "Ошибка получения задачи: invalid input for query argument: value out of int32 range")
  /\ snd (update_todo (id_fault 2147483648) db0 2147483648 (Todo.mk "t" "d" false))
     = Raise (HTTPException 500
         "Ошибка обновления задачи: invalid input for query argument: value out of int32 range")
  /\ snd (delete_todo (id_fault 2147483648) db0 2147483648)
     = Raise (HTTPException 500
         "Ошибка удаления пользователя: invalid input for query argument: value out of int32 range").
Proof. repeat split. Qed.

(** C2, amended: on an id that fits the id column and has no matching row,
    reading, updating and deleting a user or a todo each raise the 404
    exception and leave the store as it was, the driver raising nothing else;
    on an id that does not fit the column, whether or not the store holds a
    row, each of the six raises the 500 exception with the error of the
    driver and leaves the store as it was. *)
Theorem missing_row_in_range_is_not_found db (i : Z) (user : UserCreate.t) (todo : Todo.t) :
  (in_id_column i = true ->
     (users db !! i = None ->
        get_user (id_fault i) db i = user_not_found
        /\ update_user (id_fault i) db i user = (db, user_not_found)
        /\ delete_user (id_fault i) db i = (db, user_not_found))
     /\ (todos db !! i = None ->
        get_todo (id_fault i) db i = todo_not_found
        /\ update_todo (id_fault i) db i todo = (db, todo_not_found)
        /\ delete_todo (id_fault i) db i
           = (db, Raise (HTTPException 404 "Задача с указанным id не найдена"))))
  /\ (in_id_column i = false ->
     exists msg, id_fault i = Some msg
     /\ get_user (id_fault i) db i
        = Raise (HTTPException 500 ("Ошибка получения пользователя: " +:+ msg))
     /\ update_user (id_fault i) db i user
        = (db, Raise (HTTPException 500 ("Ошибка обновления пользователя: " +:+ msg)))
     /\ delete_user (id_fault i) db i
        = (db, Raise (HTTPException 500 ("Ошибка удаления пользователя: " +:+ msg)))
     /\ get_todo (id_fault i) db i
        = Raise (HTTPException 500 ("Ошибка получения задачи: " +:+ msg))
     /\ update_todo (id_fault i) db i todo
        = (db, Raise (HTTPException 500 ("Ошибка обновления задачи: " +:+ msg)))
     /\ delete_todo (id_fault i) db i
        = (db, Raise (HTTPException 500 ("Ошибка удаления пользователя: " +:+ msg)))).
Proof.
  unfold id_fault. split; intros Hfit; rewrite Hfit.
  - apply missing_row_served.
  - eexists. repeat split.
Qed.

Lemma missing_row_in_range_is_not_found_witness :
  in_id_column 7 = true /\ users db0 !! 7 = None
  /\ get_user (id_fault 7) db0 7 = user_not_found
  /\ update_user (id_fault 7) db0 7 alice = (db0, user_not_found)
  /\ delete_user (id_fault 7) db0 7 = (db0, user_not_found).
Proof.
  split; [reflexivity|]. split; [reflexivity|].
  exact (proj1 (proj1 (missing_row_in_range_is_not_found db0 7 alice (Todo.mk "t" "d" false))
                  eq_refl) eq_refl).
Defined.

(** C3: for every id, when [delete_user] succeeds, [get_user] on the same id,
    served by the store, raises the 404 exception. *)
Theorem delete_then_read fault db (i : Z) db' body :
  delete_user fault db i = (db', Return body) ->
  get_user None db' i = user_not_found.
Proof.
  intros H. apply delete_user_return in H as (_ & _ & ->).
  apply get_user_miss. cbn. apply lookup_delete_eq.
Qed.

Lemma delete_then_read_witness :
  delete_user None (mkTables {[1 := alice]} 2 ∅ 1) 1
  = (mkTables ∅ 2 ∅ 1, Return [("message", "Пользователь успешно удален")])
  /\ get_user None (mkTables ∅ 2 ∅ 1) 1 = user_not_found.
Proof.
  assert (H : delete_user None (mkTables {[1 := alice]} 2 ∅ 1) 1
              = (mkTables ∅ 2 ∅ 1, Return [("message", "Пользователь успешно удален")]))
    by reflexivity.
  split; [exact H|]. exact (delete_then_read None _ 1 _ _ H).
Defined.

(** C4: every successful update of a user or of a todo returns the
    submitted fields together with the id of the path. *)
Theorem update_returns_path_id :
  (forall fault db user_id user db' r,
     update_user fault db user_id user = (db', Return r) ->
     r = UserReturn.mk user_id (UserBase.username user) (UserBase.email user))
  /\ (forall fault db todo_id todo db' r,
     update_todo fault db todo_id todo = (db', Return r) ->
     r = TodoReturn.mk todo_id (Todo.title todo) (Todo.description todo)
                       (Todo.is_complited todo)).
Proof.
  split; intros fault db i x db' r H.
  - by apply update_user_return in H as (_ & _ & _ & ->).
  - by apply update_todo_return in H as (_ & _ & _ & ->).
Qed.

Lemma update_returns_path_id_witness :
  update_user None (mkTables {[1 := alice]} 2 ∅ 1) 1 (UserBase.mk "bob" "b@example.com")
  = (mkTables {[1 := UserBase.mk "bob" "b@example.com"]} 2 ∅ 1,
     Return (UserReturn.mk 1 "bob" "b@example.com"))
  /\ UserReturn.mk 1 "bob" "b@example.com"
     = UserReturn.mk 1 (UserBase.username (UserBase.mk "bob" "b@example.com"))
                       (UserBase.email (UserBase.mk "bob" "b@example.com")).
Proof.
  assert (H : update_user None (mkTables {[1 := alice]} 2 ∅ 1) 1
                (UserBase.mk "bob" "b@example.com")
              = (mkTables {[1 := UserBase.mk "bob" "b@example.com"]} 2 ∅ 1,
                 Return (UserReturn.mk 1 "bob" "b@example.com")))
    by reflexivity.
  split; [exact H|]. exact (proj1 update_returns_path_id None _ 1 _ _ _ H).
Defined.

(** C10: when the row with id 0 exists, [update_user] and [update_todo]
    replace it and [delete_user] and [delete_todo] remove it, and each of the
    four raises the 404 exception all the same: the integer 0 returned by the
    statement is falsy. *)
Theorem zero_id_changed_yet_not_found db (user : UserCreate.t) (todo : Todo.t) :
  (is_Some (users db !! 0) ->
     update_user None db 0 user = (set_users (insert 0 user) db, user_not_found)
     /\ delete_user None db 0 = (set_users (delete 0) db, user_not_found))
  /\ (is_Some (todos db !! 0) ->
     update_todo None db 0 todo = (set_todos (insert 0 todo) db, todo_not_found)
     /\ delete_todo None db 0
        = (set_todos (delete 0) db,
           Raise (HTTPException 404 "Задача с указанным id не найдена"))).
Proof.
  split; intros [row H].
  - destruct user as [u e]. unfold update_user, delete_user.
    rewrite (execute_update_users_hit _ _ _ _ _ H), (execute_delete_users_hit _ _ _ H).
    done.
  - destruct todo as [t d c]. unfold update_todo, delete_todo.
    rewrite (execute_update_todos_hit _ _ _ _ _ _ H), (execute_delete_todos_hit _ _ _ H).
    done.
Qed.

Lemma zero_id_changed_yet_not_found_witness :
  is_Some (users (mkTables {[0 := alice]} 1 ∅ 1) !! 0)
  /\ update_user None (mkTables {[0 := alice]} 1 ∅ 1) 0 (UserBase.mk "bob" "b@example.com")
     = (mkTables {[0 := UserBase.mk "bob" "b@example.com"]} 1 ∅ 1, user_not_found)
  /\ delete_user None (mkTables {[0 := alice]} 1 ∅ 1) 0
     = (mkTables ∅ 1 ∅ 1, user_not_found).
Proof.
  assert (H : is_Some (users (mkTables {[0 := alice]} 1 ∅ 1) !! 0))
    by (exists alice; reflexivity).
  split; [exact H|].
  exact (proj1 (zero_id_changed_yet_not_found (mkTables {[0 := alice]} 1 ∅ 1)
                  (UserBase.mk "bob" "b@example.com") (Todo.mk "t" "d" false)) H).
Defined.

(** ** Properties of the HTTP surface *)

(** C8, as the code has it: the body of [GET /] has the single key
    ["message: "], colon and blank included, and no key ["message"]. *)
Theorem read_root_key :
  read_root = [("message: ", "Hello, World!")]
  /\ dict_get read_root "message: " = Some "Hello, World!"
  /\ dict_get read_root "message" = None.
Proof. repeat split. Qed.

(** C7 fails as stated: a body whose username is the empty string validates,
    [POST /users/] stores the row and answers 200, and [PUT /users/1]
    overwrites the stored row with it. *)
Lemma empty_username_reaches_storage :
  UserCreate_validate nameless = Valid (UserBase.mk EmptyString "a@example.com")
  /\ post_users None db0 nameless
     = (mkTables {[1 := UserBase.mk EmptyString "a@example.com"]} 2 ∅ 1,
        Content 200 (UserReturn.mk 1 EmptyString "a@example.com"))
  /\ put_users None (mkTables {[1 := alice]} 2 ∅ 1) 1 nameless
     = (mkTables {[1 := UserBase.mk EmptyString "a@example.com"]} 2 ∅ 1,
        Content 200 (UserReturn.mk 1 EmptyString "a@example.com")).
Proof. repeat split. Qed.

(** C7, amended: the username has to be present and a string, of any length,
    the empty one included.  A body whose username is missing or is not a
    string is answered 422 by both endpoints whatever the driver would do, the
    store untouched; a body with two strings validates to these strings. *)
Theorem username_must_be_text (body : gmap string json) :
  ((forall s, body !! "username" <> Some (JStr s)) ->
     exists es, es <> [] /\
       forall fault db user_id,
         post_users fault db body = (db, Unprocessable es)
         /\ put_users fault db user_id body = (db, Unprocessable es))
  /\ (forall u e, body !! "username" = Some (JStr u) -> body !! "email" = Some (JStr e) ->
       UserCreate_validate body = Valid (UserBase.mk u e)).
Proof.
  split.
  - intros Hno.
    assert (Hu : exists eu, eu <> [] /\ str_field body "username" = Invalid eu).
    { unfold str_field. destruct (body !! "username") as [[| | |s]|] eqn:Hb;
        try (eexists; split; [|reflexivity]; discriminate).
      by destruct (Hno s). }
    destruct Hu as (eu & Hne & Hu).
    exists (eu ++ errors_of (str_field body "email"))%list. split.
    { destruct eu; [done | discriminate]. }
    intros fault db user_id. unfold post_users, put_users, UserCreate_validate.
    rewrite Hu. by destruct (str_field body "email").
  - intros u e Hu He. unfold UserCreate_validate, str_field. by rewrite Hu, He.
Qed.

Lemma username_must_be_text_witness :
  (forall s, ({[ "username" := JInt 5; "email" := JStr "a@example.com" ]} : gmap string json)
               !! "username" <> Some (JStr s))
  /\ exists es, es <> [] /\
       forall fault db user_id,
         post_users fault db {[ "username" := JInt 5; "email" := JStr "a@example.com" ]}
         = (db, Unprocessable es)
         /\ put_users fault db user_id {[ "username" := JInt 5; "email" := JStr "a@example.com" ]}
            = (db, Unprocessable es).
Proof.
  assert (H : forall s,
             ({[ "username" := JInt 5; "email" := JStr "a@example.com" ]} : gmap string json)
               !! "username" <> Some (JStr s))
    by (intros s; vm_compute; discriminate).
  split; [exact H|].
  exact (proj1 (username_must_be_text _) H).
Defined.

(** ** The matcher *)

Lemma elem_In x l : elem x l = true <-> In x l.
Proof.
  unfold elem. rewrite existsb_exists. split.
  - intros (y & Hy & Heq). apply Z.eqb_eq in Heq. by subst.
  - intros H. exists x. split; [done | apply Z.eqb_refl].
Qed.

Lemma range_match_cyr x :
  range_match true Feedback.cyr_a Feedback.cyr_ya x = true <-> cyr_letter x.
Proof.
  unfold range_match.
  set (l := flat_map _ _). vm_compute in l. subst l.
  rewrite elem_In. unfold cyr_letter, unicode_tolower. cbn [In].
  destruct (65 <=? x) eqn:H1; destruct (x <=? 90) eqn:H2;
    destruct (1040 <=? x) eqn:H3; destruct (x <=? 1071) eqn:H4;
    destruct (1024 <=? x) eqn:H5; destruct (x <=? 1039) eqn:H6; cbn [andb]; lia.
Qed.

Lemma nonempty_In {A} (l : list A) : l <> [] <-> exists x, In x l.
Proof.
  destruct l as [|a l]; split; try done.
  - by intros [x []].
  - intros _. exists a. by left.
Qed.

Lemma in_advance ok p s st :
  In st (advance ok (p, s)) <-> exists c, ok c = true /\ s = c :: snd st /\ fst st = S p.
Proof.
  unfold advance; cbn. destruct s as [|c rest].
  - split; [done | by intros (? & _ & ? & _)].
  - destruct (ok c) eqn:Hc; cbn; split.
    + intros [<- | []]. by exists c.
    + intros (c' & _ & [= <- ->] & Hp). left. destruct st; cbn in *; by subst.
    + done.
    + intros (c' & Hc' & [= <- ->] & _). congruence.
Qed.

Lemma in_run_word ic w : forall p s st,
  In st (run ic (word w) (p, s)) <->
  exists w', Forall2 (fun c x => lit_match ic c x = true) w w'
             /\ s = (w' ++ snd st)%list /\ fst st = (p + length w)%nat.
Proof.
  induction w as [|c w IH]; intros p s st; cbn.
  - split.
    + intros [<- | []]. exists []. cbn. repeat split; [constructor | lia].
    + intros (w' & Hw & -> & Hp). inversion Hw; subst. left.
      destruct st; cbn in *. f_equal. lia.
  - rewrite in_flat_map. split.
    + intros ([q t] & Hadv & Hin). apply in_advance in Hadv as (x & Hx & -> & Hq).
      cbn in Hq. subst q. apply IH in Hin as (w' & Hw & Ht & Hp). cbn in Ht. subst t.
      exists (x :: w'). repeat split; [by constructor | lia].
    + intros (w' & Hw & -> & Hp). inversion Hw as [|c' x w0 w0' Hx Hw0]; subst.
      exists (S p, (w0' ++ snd st)%list). split.
      * apply in_advance. by exists x.
      * apply IH. exists w0'. repeat split; [done | lia].
Qed.

Lemma in_stem_branch stem p s st :
  In st (run true (Seq (word stem) (Range Feedback.cyr_a Feedback.cyr_ya)) (p, s)) <->
  exists w c, Forall2 same_letter stem w /\ cyr_letter c
              /\ s = (w ++ c :: snd st)%list /\ fst st = S (p + length stem).
Proof.
  cbn [run]. rewrite in_flat_map. split.
  - intros ([q t] & Hw & Hadv). apply in_run_word in Hw as (w & Hw & -> & Hq).
    apply in_advance in Hadv as (c & Hc & Ht & Hst). cbn in *. subst.
    exists w, c. by rewrite <- range_match_cyr.
  - intros (w & c & Hw & Hc & -> & Hst).
    exists ((p + length stem)%nat, c :: snd st). split.
    + apply in_run_word. by exists w.
    + apply in_advance. exists c. by rewrite range_match_cyr.
Qed.

(** The pattern matches at a cursor exactly when a stem and one letter stand
    there. *)
Lemma pattern_matches_here p s :
  run true Feedback.pattern (p, s) <> [] <->
  exists w c rest, s = (w ++ c :: rest)%list /\ is_stem w /\ cyr_letter c.
Proof.
  rewrite nonempty_In. unfold Feedback.pattern. cbn [run].
  split.
  - intros (st & Hin). rewrite !in_app_iff in Hin.
    destruct Hin as [H | [H | H]]; apply in_stem_branch in H as (w & c & Hw & Hc & -> & _);
      exists w, c, (snd st); (split; [done|]); (split; [|done]);
      eexists; (split; [|exact Hw]); cbn; tauto.
  - intros (w & c & rest & -> & (stem & Hstem & Hw) & Hc).
    exists (S (p + length stem), rest). rewrite !in_app_iff.
    cbn in Hstem. destruct Hstem as [<- | [<- | [<- | []]]];
      [left | right; left | right; right]; apply in_stem_branch; by exists w, c.
Qed.

Lemma findall_from_nonempty ic r : forall s pos,
  findall_from ic r pos 0 s <> [] <->
  exists k, (k <= length s)%nat /\ run ic r ((pos + k)%nat, drop k s) <> [].
Proof.
  induction s as [|x s IH]; intros pos; cbn.
  - destruct (run ic r (pos, [])) as [|[q t] l] eqn:Hrun.
    + split; [done|]. intros (k & Hk & H). assert (k = 0)%nat as -> by lia.
      rewrite Nat.add_0_r in H. cbn in H. congruence.
    + split; [|done]. intros _. exists 0%nat. rewrite Nat.add_0_r. cbn.
      split; [lia | by rewrite Hrun].
  - destruct (run ic r (pos, x :: s)) as [|[q t] l] eqn:Hrun.
    + rewrite IH. split.
      * intros (k & Hk & H). exists (S k). split; [lia|].
        by replace (pos + S k)%nat with (S pos + k)%nat by lia.
      * intros (k & Hk & H). destruct k as [|k].
        { rewrite Nat.add_0_r in H. cbn in H. congruence. }
        exists k. split; [lia|].
        by replace (S pos + k)%nat with (pos + S k)%nat by lia.
    + split; [|done]. intros _. exists 0%nat. rewrite Nat.add_0_r. cbn.
      split; [lia | by rewrite Hrun].
Qed.

(** [findall] finds something exactly when a stem with a letter behind it
    occurs in the text. *)
Lemma findall_pattern data :
  findall true Feedback.pattern data <> [] <-> stem_then_letter data.
Proof.
  unfold findall. rewrite findall_from_nonempty. split.
  - intros (k & Hk & H). apply pattern_matches_here in H as (w & c & rest & Hd & Hw & Hc).
    exists (take k data), w, c, rest. split; [|done].
    by rewrite <- Hd, take_drop.
  - intros (pre & w & c & post & -> & Hw & Hc).
    exists (length pre). split; [rewrite length_app; lia|].
    rewrite drop_app_length. apply pattern_matches_here. by exists w, c, post.
Qed.

Lemma validate_message_cases data :
  (stem_then_letter data /\
     Feedback.validate_message data = Raise (Exception "Использование недопустимых слов"))
  \/ (~ stem_then_letter data /\ Feedback.validate_message data = Return data).
Proof.
  unfold Feedback.validate_message.
  destruct (findall true Feedback.pattern data) as [|m l] eqn:Hf.
  - right. split; [|done]. rewrite <- findall_pattern, Hf. tauto.
  - left. split; [|done]. rewrite <- findall_pattern, Hf. done.
Qed.

Lemma stem_then_letter_contains data : stem_then_letter data -> contains_stem data.
Proof.
  intros (pre & w & c & post & -> & Hw & _). by exists pre, w, (c :: post).
Qed.

(** A text containing a stem contains the first letter of one, in some case. *)
Lemma contains_stem_first_letter data :
  contains_stem data ->
  exists x, In x data /\ (same_letter 1088 x \/ same_letter 1073 x \/ same_letter 1082 x).
Proof.
  intros (pre & w & post & -> & stem & Hstem & Hw).
  cbn in Hstem. destruct Hstem as [<- | [<- | [<- | []]]];
    inversion Hw as [|c x ? w' Hx _]; subst; exists x;
    (split; [rewrite !in_app_iff; right; left; by left | tauto]).
Qed.

Lemma stem_at_end_contains : contains_stem (chars "это просто редиск").
Proof.
  exists (chars "это просто "), (chars "редиск"), [].
  split; [reflexivity|]. exists (chars "редиск"). split; [by left|].
  repeat constructor.
Qed.

Lemma in_exactly_advance ok n : forall p s st,
  In st (exactly n (advance ok) (p, s)) <->
  (n <= length s)%nat /\ Forall (fun x => ok x = true) (take n s)
  /\ st = ((p + n)%nat, drop n s).
Proof.
  induction n as [|n IH]; intros p s st; cbn [exactly].
  - cbn. rewrite Nat.add_0_r. split.
    + intros [<- | []]. repeat split; [lia | constructor].
    + intros (_ & _ & ->). by left.
  - rewrite in_flat_map. split.
    + intros ([q t] & Hadv & Hin). apply in_advance in Hadv as (c & Hc & -> & Hq).
      cbn in Hq. subst q. apply IH in Hin as (Hn & Hall & ->). cbn.
      repeat split; [lia | by constructor | f_equal; lia].
    + intros (Hn & Hall & ->). destruct s as [|c s]; [cbn in Hn; lia|].
      cbn in Hn, Hall. inversion Hall; subst.
      exists (S p, s). split.
      * apply in_advance. by exists c.
      * apply IH. repeat split; [lia | done | cbn; f_equal; lia].
Qed.

Lemma in_upto_advance ok n : forall p s st,
  In st (upto n (advance ok) (p, s)) <->
  exists k, (k <= n)%nat /\ (k <= length s)%nat /\ Forall (fun x => ok x = true) (take k s)
            /\ st = ((p + k)%nat, drop k s).
Proof.
  induction n as [|n IH]; intros p s st; cbn [upto].
  - cbn. split.
    + intros [<- | []]. exists 0%nat. rewrite Nat.add_0_r. cbn.
      repeat split; [lia | lia | constructor].
    + intros (k & Hk & _ & _ & ->). assert (k = 0)%nat as -> by lia.
      rewrite Nat.add_0_r. by left.
  - rewrite in_app_iff, in_flat_map. split.
    + intros [([q t] & Hadv & Hin) | [<- | []]].
      * apply in_advance in Hadv as (c & Hc & -> & Hq). cbn in Hq. subst q.
        apply IH in Hin as (k & Hk & Hlen & Hall & ->). exists (S k). cbn.
        repeat split; [lia | lia | by constructor | f_equal; lia].
      * exists 0%nat. rewrite Nat.add_0_r. cbn. repeat split; [lia | lia | constructor].
    + intros (k & Hk & Hlen & Hall & ->). destruct k as [|k].
      * right. left. by rewrite Nat.add_0_r.
      * left. destruct s as [|c s]; [cbn in Hlen; lia|].
        cbn in Hlen, Hall. inversion Hall; subst.
        exists (S p, s). split.
        -- apply in_advance. by exists c.
        -- apply IH. exists k. repeat split; [lia | lia | done | cbn; f_equal; lia].
Qed.

Lemma search_from_anchored ic r : forall s p,
  search_from ic (Seq Bol r) (S p) s = false.
Proof. induction s as [|x s IH]; intros p; cbn; [done | apply IH]. Qed.

Lemma search_anchored ic r s :
  search ic (Seq Bol r) s = true <-> run ic r (0%nat, s) <> [].
Proof.
  unfold search. destruct s as [|x s]; cbn [search_from run fst flat_map];
    rewrite app_nil_r; destruct (run ic r _) eqn:Hrun; try done.
  rewrite search_from_anchored. done.
Qed.

(** The pattern of the phone number, read off the matcher. *)
Lemma phone_pattern_matches digit s :
  search false (Contact.phone_pattern digit) s = true <-> seven_to_fifteen_digits digit s.
Proof.
  unfold Contact.phone_pattern. rewrite search_anchored, nonempty_In.
  unfold seven_to_fifteen_digits. cbn [run Nat.sub]. split.
  - intros (st & Hin). apply in_flat_map in Hin as ([q t] & Hrep & Heol).
    apply in_flat_map in Hrep as ([q1 t1] & H7 & H8).
    apply in_exactly_advance in H7 as (Hlen7 & Hall7 & [= -> ->]).
    apply in_upto_advance in H8 as (k & Hk & Hlenk & Hallk & [= -> ->]).
    cbn in Heol. destruct (drop k (drop 7 s)) eqn:Hd; [|done].
    apply (f_equal length) in Hd. cbn in Hd.
    rewrite length_drop in Hlenk. repeat rewrite length_drop in Hd.
    split; [lia|].
    rewrite <- (take_drop 7 s). apply Forall_app. split; [done|].
    rewrite <- (take_drop k (drop 7 s)). apply Forall_app. split; [done|].
    rewrite (nil_length_inv (drop k (drop 7 s))); [constructor|].
    rewrite !length_drop. lia.
  - intros ([Hlo Hhi] & Hall).
    exists (length s, []). apply in_flat_map. exists (length s, []). split; [|by left].
    apply in_flat_map. exists (7%nat, drop 7 s). split.
    + apply in_exactly_advance. repeat split; [done | by apply Forall_take].
    + apply in_upto_advance. exists (length s - 7)%nat.
      rewrite length_drop. repeat split; [lia | lia | |].
      * apply Forall_take. by apply Forall_drop.
      * f_equal; [lia|]. rewrite drop_drop. symmetry. apply drop_ge. lia.
Qed.

(** ** Properties of [Contact] and [Feedback] *)

(** C5 fails as stated: this message contains the stem at its very end, is
    17 characters long and validates. *)
Lemma stem_at_end_is_accepted :
  contains_stem (chars "это просто редиск")
  /\ length (chars "это просто редиск") = 17%nat
  /\ Feedback.message (chars "это просто редиск") = Valid (chars "это просто редиск").
Proof. split; [exact stem_at_end_contains | split; reflexivity]. Qed.

(** C5, amended: a message is rejected whenever it contains a block-listed
    stem, in any case, with a Cyrillic letter right behind it; a message of 9
    characters is rejected as too short; a message of exactly 10 characters
    containing no block-listed stem is accepted. *)
Theorem feedback_message_policy (data : list Z) :
  (stem_then_letter data -> exists es, Feedback.message data = Invalid es)
  /\ (length data = 9%nat ->
      Feedback.message data = Invalid [mkError "message" "string_too_short"])
  /\ (length data = 10%nat -> ~ contains_stem data ->
      Feedback.message data = Valid data).
Proof.
  unfold Feedback.message. repeat split.
  - intros Hs. destruct (length data <? 10)%nat; [eauto|].
    destruct (500 <? length data)%nat; [eauto|].
    destruct (validate_message_cases data) as [[_ ->] | [Hno _]]; [eauto | done].
  - intros ->. reflexivity.
  - intros -> Hno. cbn.
    destruct (validate_message_cases data) as [[Hs _] | [_ ->]]; [|done].
    destruct Hno. by apply stem_then_letter_contains.
Qed.

Lemma feedback_message_policy_witness :
  (stem_then_letter (chars "Ты РЕДИСКА!")
   /\ exists es, Feedback.message (chars "Ты РЕДИСКА!") = Invalid es)
  /\ (length (chars "123456789") = 9%nat
      /\ Feedback.message (chars "123456789") = Invalid [mkError "message" "string_too_short"])
  /\ (length (chars "1234567890") = 10%nat /\ ~ contains_stem (chars "1234567890")
      /\ Feedback.message (chars "1234567890") = Valid (chars "1234567890")).
Proof.
  assert (H1 : stem_then_letter (chars "Ты РЕДИСКА!")).
  { exists (chars "Ты "), (chars "РЕДИСК"), 1040, (chars "!").
    split; [reflexivity|]. split.
    - exists (chars "редиск"). split; [by left | repeat constructor].
    - left. lia. }
  assert (H3 : ~ contains_stem (chars "1234567890")).
  { intros H. apply contains_stem_first_letter in H as (x & Hx & Hl).
    cbn in Hx. unfold same_letter in Hl.
    repeat (destruct Hx as [<- | Hx]; [vm_compute in Hl; intuition discriminate|]).
    destruct Hx. }
  split; [split; [exact H1 | exact (proj1 (feedback_message_policy _) H1)]|].
  split; [split; [reflexivity | exact (proj1 (proj2 (feedback_message_policy (chars "123456789"))) eq_refl)]|].
  split; [reflexivity|]. split; [exact H3|].
  exact (proj2 (proj2 (feedback_message_policy (chars "1234567890"))) eq_refl H3).
Defined.

(** The two outcomes of a phone that is given. *)
Lemma phone_given digit s :
  (seven_to_fifteen_digits digit s /\ Contact.phone digit (Some s) = Valid (Some s))
  \/ (~ seven_to_fifteen_digits digit s
      /\ Contact.phone digit (Some s) = Invalid [mkError "phone" "string_pattern_mismatch"]).
Proof.
  unfold Contact.phone.
  destruct (search false (Contact.phone_pattern digit) s) eqn:Hm.
  - left. split; [by apply phone_pattern_matches | done].
  - right. split; [|done]. rewrite <- phone_pattern_matches, Hm. done.
Qed.

(** C6: whatever decimal digits the pattern engine knows besides the ten
    ASCII ones, a phone of 5 digits is rejected, a phone of 7 digits is
    accepted, a missing phone is accepted; in general the phone passes exactly
    when it is absent or is, from end to end, 7 to 15 decimal digits. *)
Theorem phone_validation (digit : Z -> bool) :
  has_ascii_digits digit ->
  Contact.phone digit (Some (chars "12345"))
  = Invalid [mkError "phone" "string_pattern_mismatch"]
  /\ Contact.phone digit (Some (chars "1234567")) = Valid (Some (chars "1234567"))
  /\ Contact.phone digit None = Valid None
  /\ forall v, Contact.phone digit v = Valid v <->
               v = None \/ exists s, v = Some s /\ seven_to_fifteen_digits digit s.
Proof.
  intros Hascii. split; [|split; [|split; [reflexivity|]]].
  - destruct (phone_given digit (chars "12345")) as [[[Hlen _] _] | [_ ->]]; [|done].
    vm_compute in Hlen. lia.
  - destruct (phone_given digit (chars "1234567")) as [[_ ->] | [Hno _]]; [done|].
    destruct Hno. split; [vm_compute; lia|].
    vm_compute (chars _).
    repeat (apply List.Forall_cons; [apply Hascii; lia|]). apply List.Forall_nil.
  - intros v. destruct v as [s|]; [|split; [by left | done]].
    destruct (phone_given digit s) as [[Hs ->] | [Hno ->]]; split; try done.
    + intros _. right. by exists s.
    + intros [Hv | (s' & [= <-] & Hs)]; [done | by destruct Hno].
Qed.

Lemma is_digit_ascii : has_ascii_digits is_digit.
Proof.
  intros x Hx. unfold is_digit. apply existsb_exists. exists 48.
  split; [by left|]. apply andb_true_iff. split; apply Z.leb_le; lia.
Qed.

Lemma phone_validation_witness :
  has_ascii_digits is_digit
  /\ Contact.phone is_digit (Some (chars "12345"))
     = Invalid [mkError "phone" "string_pattern_mismatch"]
  /\ Contact.phone is_digit (Some (chars "1234567")) = Valid (Some (chars "1234567")).
Proof.
  split; [exact is_digit_ascii|].
  split; [exact (proj1 (phone_validation is_digit is_digit_ascii))
         | exact (proj1 (proj2 (phone_validation is_digit is_digit_ascii)))].
Defined.

(** C9: [validate_message] raises exactly when some block-listed stem in the
    message has a Cyrillic letter right behind it, and returns the message
    otherwise; a stem with no such letter behind it, as at the end of the
    message, passes. *)
Theorem filter_needs_letter_behind_stem (data : list Z) :
  (Feedback.validate_message data = Raise (Exception "Использование недопустимых слов")
   <-> stem_then_letter data)
  /\ (Feedback.validate_message data = Return data <-> ~ stem_then_letter data).
Proof.
  destruct (validate_message_cases data) as [[Hs ->] | [Hno ->]];
    repeat split; try done.
Qed.

Lemma filter_needs_letter_behind_stem_witness :
  contains_stem (chars "это просто редиск")
  /\ ~ stem_then_letter (chars "это просто редиск")
  /\ Feedback.validate_message (chars "это просто редиск") = Return (chars "это просто редиск").
Proof.
  split; [exact stem_at_end_contains|].
  split; [|reflexivity].
  exact (proj1 (proj2 (filter_needs_letter_behind_stem (chars "это просто редиск"))) eq_refl).
Defined.

(** ** Further properties of the handlers *)

Lemma get_todo_hit db i row :
  todos db !! i = Some row ->
  get_todo None db i
  = Return (TodoReturn.mk i (Todo.title row) (Todo.description row) (Todo.is_complited row)).
Proof. intros H. unfold get_todo. rewrite fetch_one_todos, H. reflexivity. Qed.

Lemma create_todo_return fault db todo db' r :
  create_todo fault db todo = (db', Return r) ->
  todos db' !! TodoReturn.id r = Some todo /\
  r = TodoReturn.mk (TodoReturn.id r) (Todo.title todo) (Todo.description todo)
                    (Todo.is_complited todo).
Proof.
  destruct todo as [t d c]. unfold create_todo.
  destruct fault as [msg|]; [discriminate|]. cbn.
  destruct (todos db !! todos_id_seq db) eqn:Hfree; cbn; [discriminate|].
  intros [= <- <-]. cbn. split; [apply lookup_insert_eq | reflexivity].
Qed.

Lemma delete_todo_return fault db i db' body :
  delete_todo fault db i = (db', Return body) ->
  i <> 0 /\ is_Some (todos db !! i) /\ db' = set_todos (delete i) db.
Proof.
  unfold delete_todo.
  destruct fault as [msg|]; [discriminate|]. cbn.
  destruct (todos db !! i) eqn:Hrow; cbn; [|discriminate].
  destruct (i =? 0) eqn:Hz; cbn; [discriminate|].
  intros [= <- <-]. apply Z.eqb_neq in Hz. eauto.
Qed.

(** X1: when [create_todo] succeeds, the record it returns is the input
    fields with the assigned id, and [get_todo] on that id returns the same
    record. *)
Theorem create_todo_then_read fault db todo db' r :
  create_todo fault db todo = (db', Return r) ->
  r = TodoReturn.mk (TodoReturn.id r) (Todo.title todo) (Todo.description todo)
                    (Todo.is_complited todo)
  /\ get_todo None db' (TodoReturn.id r) = Return r.
Proof.
  intros H. apply create_todo_return in H as [Hrow Hr].
  split; [exact Hr|]. rewrite (get_todo_hit _ _ _ Hrow). by rewrite <- Hr.
Qed.

Lemma create_todo_then_read_witness :
  create_todo None db0 (Todo.mk "milk" "two litres" false)
  = (mkTables ∅ 1 {[1 := Todo.mk "milk" "two litres" false]} 2,
     Return (TodoReturn.mk 1 "milk" "two litres" false))
  /\ get_todo None (mkTables ∅ 1 {[1 := Todo.mk "milk" "two litres" false]} 2) 1
     = Return (TodoReturn.mk 1 "milk" "two litres" false).
Proof.
  assert (H : create_todo None db0 (Todo.mk "milk" "two litres" false)
              = (mkTables ∅ 1 {[1 := Todo.mk "milk" "two litres" false]} 2,
                 Return (TodoReturn.mk 1 "milk" "two litres" false)))
    by reflexivity.
  split; [exact H|]. exact (proj2 (create_todo_then_read None db0 _ _ _ H)).
Defined.

(** X2: when [update_user] succeeds, [get_user] on the same id returns the
    submitted fields, whatever the row held before, and returns what the update
    itself returned. *)
Theorem update_user_then_read fault db (i : Z) user db' r :
  update_user fault db i user = (db', Return r) ->
  get_user None db' i
  = Return (UserReturn.mk i (UserBase.username user) (UserBase.email user))
  /\ get_user None db' i = Return r.
Proof.
  intros H. apply update_user_return in H as (_ & _ & -> & ->).
  assert (Hrow : users (set_users (insert i user) db) !! i = Some user)
    by apply lookup_insert_eq.
  by rewrite (get_user_hit _ _ _ Hrow).
Qed.

Lemma update_user_then_read_witness :
  update_user None (mkTables {[1 := alice]} 2 ∅ 1) 1 (UserBase.mk "bob" "b@example.com")
  = (mkTables {[1 := UserBase.mk "bob" "b@example.com"]} 2 ∅ 1,
     Return (UserReturn.mk 1 "bob" "b@example.com"))
  /\ get_user None (mkTables {[1 := UserBase.mk "bob" "b@example.com"]} 2 ∅ 1) 1
     = Return (UserReturn.mk 1 "bob" "b@example.com").
Proof.
  assert (H : update_user None (mkTables {[1 := alice]} 2 ∅ 1) 1
                (UserBase.mk "bob" "b@example.com")
              = (mkTables {[1 := UserBase.mk "bob" "b@example.com"]} 2 ∅ 1,
                 Return (UserReturn.mk 1 "bob" "b@example.com")))
    by reflexivity.
  split; [exact H|]. exact (proj2 (update_user_then_read None _ 1 _ _ _ H)).
Defined.

(** X3: when [update_todo] succeeds, [get_todo] on the same id returns the
    submitted fields, the completion flag included. *)
Theorem update_todo_then_read fault db (i : Z) todo db' r :
  update_todo fault db i todo = (db', Return r) ->
  get_todo None db' i
  = Return (TodoReturn.mk i (Todo.title todo) (Todo.description todo)
                          (Todo.is_complited todo))
  /\ get_todo None db' i = Return r.
Proof.
  intros H. apply update_todo_return in H as (_ & _ & -> & ->).
  assert (Hrow : todos (set_todos (insert i todo) db) !! i = Some todo)
    by apply lookup_insert_eq.
  by rewrite (get_todo_hit _ _ _ Hrow).
Qed.

Lemma update_todo_then_read_witness :
  update_todo None (mkTables ∅ 1 {[1 := Todo.mk "milk" "two litres" false]} 2) 1
    (Todo.mk "milk" "bought" true)
  = (mkTables ∅ 1 {[1 := Todo.mk "milk" "bought" true]} 2,
     Return (TodoReturn.mk 1 "milk" "bought" true))
  /\ get_todo None (mkTables ∅ 1 {[1 := Todo.mk "milk" "bought" true]} 2) 1
     = Return (TodoReturn.mk 1 "milk" "bought" true).
Proof.
  assert (H : update_todo None (mkTables ∅ 1 {[1 := Todo.mk "milk" "two litres" false]} 2) 1
                (Todo.mk "milk" "bought" true)
              = (mkTables ∅ 1 {[1 := Todo.mk "milk" "bought" true]} 2,
                 Return (TodoReturn.mk 1 "milk" "bought" true)))
    by reflexivity.
  split; [exact H|]. exact (proj2 (update_todo_then_read None _ 1 _ _ _ H)).
Defined.

(** X4: when [delete_todo] succeeds, [get_todo] on the same id raises the 404
    exception. *)
Theorem delete_todo_then_read fault db (i : Z) db' body :
  delete_todo fault db i = (db', Return body) ->
  get_todo None db' i = todo_not_found.
Proof.
  intros H. apply delete_todo_return in H as (_ & _ & ->).
  apply get_todo_miss. cbn. apply lookup_delete_eq.
Qed.

Lemma delete_todo_then_read_witness :
  delete_todo None (mkTables ∅ 1 {[1 := Todo.mk "milk" "two litres" false]} 2) 1
  = (mkTables ∅ 1 ∅ 2, Return [("message", "Задача успешно удалена")])
  /\ get_todo None (mkTables ∅ 1 ∅ 2) 1 = todo_not_found.
Proof.
  assert (H : delete_todo None (mkTables ∅ 1 {[1 := Todo.mk "milk" "two litres" false]} 2) 1
              = (mkTables ∅ 1 ∅ 2, Return [("message", "Задача успешно удалена")]))
    by reflexivity.
  split; [exact H|]. exact (delete_todo_then_read None _ 1 _ _ H).
Defined.

(** X5: when the driver raises before the statement takes effect, every
    handler raises [HTTPException] 500 whose detail is the handler's own prefix
    followed by the text of the driver's error, and the store is as before
    ([delete_todo] uses the prefix of [delete_user]).  When an insertion is
    refused because the id drawn from the sequence is already taken,
    [create_user] and [create_todo] raise [HTTPException] 500 with their
    prefix as well; the rows are as before, but the sequence has moved on by
    one. *)
Theorem database_error_is_500 (msg : string) db (i : Z) (user : UserCreate.t) (todo : Todo.t) :
  create_user (Some msg) db user
  = (db, Raise (HTTPException 500 ("Ошибка при создании пользователя: " +:+ msg)))
  /\ get_user (Some msg) db i
     = Raise (HTTPException 500 ("Ошибка получения пользователя: " +:+ msg))
  /\ update_user (Some msg) db i user
     = (db, Raise (HTTPException 500 ("Ошибка обновления пользователя: " +:+ msg)))
  /\ delete_user (Some msg) db i
     = (db, Raise (HTTPException 500 ("Ошибка удаления пользователя: " +:+ msg)))
  /\ create_todo (Some msg) db todo
     = (db, Raise (HTTPException 500 ("Ошибка при создании задачи: " +:+ msg)))
  /\ get_todo (Some msg) db i
     = Raise (HTTPException 500 ("Ошибка получения задачи: " +:+ msg))
  /\ update_todo (Some msg) db i todo
     = (db, Raise (HTTPException 500 ("Ошибка обновления задачи: " +:+ msg)))
  /\ delete_todo (Some msg) db i
     = (db, Raise (HTTPException 500 ("Ошибка удаления пользователя: " +:+ msg)))
  /\ (is_Some (users db !! users_id_seq db) ->
      exists text,
        create_user None db user
        = (next_users_id db,
           Raise (HTTPException 500 ("Ошибка при создании пользователя: " +:+ text))))
  /\ (is_Some (todos db !! todos_id_seq db) ->
      exists text,
        create_todo None db todo
        = (next_todos_id db,
           Raise (HTTPException 500 ("Ошибка при создании задачи: " +:+ text)))).
Proof.
  do 8 (split; [reflexivity|]). split; intros [row Hrow].
  - exists (str unique_violation). unfold create_user. cbn. by rewrite Hrow.
  - exists (str unique_violation). unfold create_todo. cbn. by rewrite Hrow.
Qed.

Lemma database_error_is_500_witness :
  is_Some (users (mkTables {[1 := alice]} 1 ∅ 1) !! users_id_seq (mkTables {[1 := alice]} 1 ∅ 1))
  /\ exists text,
       create_user None (mkTables {[1 := alice]} 1 ∅ 1) (UserBase.mk "bob" "b@example.com")
       = (mkTables {[1 := alice]} 2 ∅ 1,
          Raise (HTTPException 500 ("Ошибка при создании пользователя: " +:+ text))).
Proof.
  assert (H : is_Some (users (mkTables {[1 := alice]} 1 ∅ 1)
                         !! users_id_seq (mkTables {[1 := alice]} 1 ∅ 1)))
    by (exists alice; reflexivity).
  split; [exact H|].
  exact (proj1 (proj2 (proj2 (proj2 (proj2 (proj2 (proj2 (proj2 (proj2
           (database_error_is_500 EmptyString (mkTables {[1 := alice]} 1 ∅ 1) 0
              (UserBase.mk "bob" "b@example.com") (Todo.mk "t" "d" false)))))))))) H).
Defined.

(** X6: whatever the store holds and whatever the driver does, no handler
    lets another exception than [HTTPException] out: the two creations raise
    with status 500 only, the other six with 404 or 500 only. *)
Theorem handlers_raise_http_only fault db (i : Z) (user : UserCreate.t) (todo : Todo.t) :
  raises_only [500] (snd (create_user fault db user))
  /\ raises_only [404; 500] (get_user fault db i)
  /\ raises_only [404; 500] (snd (update_user fault db i user))
  /\ raises_only [404; 500] (snd (delete_user fault db i))
  /\ raises_only [500] (snd (create_todo fault db todo))
  /\ raises_only [404; 500] (get_todo fault db i)
  /\ raises_only [404; 500] (snd (update_todo fault db i todo))
  /\ raises_only [404; 500] (snd (delete_todo fault db i)).
Proof.
  destruct fault as [msg|].
  { cbn. intuition. }
  unfold create_user, get_user, update_user, delete_user,
    create_todo, get_todo, update_todo, delete_todo.
  rewrite fetch_one_users, fetch_one_todos. cbn.
  destruct (users db !! users_id_seq db), (todos db !! todos_id_seq db),
    (users db !! i), (todos db !! i); simpl;
    destruct (i =? 0); simpl; intuition.
Qed.

(** The outcome of an update and of a deletion the store serves, by
    cases on the row and on the id. *)
Lemma update_user_served db i user :
  snd (update_user None db i user)
  = match users db !! i with
    | Some _ =>
        if i =? 0 then user_not_found
        else Return (UserReturn.mk i (UserBase.username user) (UserBase.email user))
    | None => user_not_found
    end.
Proof. unfold update_user. cbn.
  destruct (users db !! i); cbn; [destruct (i =? 0)|]; reflexivity.
Qed.

Lemma update_todo_served db i todo :
  snd (update_todo None db i todo)
  = match todos db !! i with
    | Some _ =>
        if i =? 0 then todo_not_found
        else Return (TodoReturn.mk i (Todo.title todo) (Todo.description todo)
                                   (Todo.is_complited todo))
    | None => todo_not_found
    end.
Proof. unfold update_todo. cbn.
  destruct (todos db !! i); cbn; [destruct (i =? 0)|]; reflexivity.
Qed.

Lemma delete_user_served db i :
  snd (delete_user None db i)
  = match users db !! i with
    | Some _ =>
        if i =? 0 then user_not_found
        else Return [("message", "Пользователь успешно удален")]
    | None => user_not_found
    end.
Proof. unfold delete_user. cbn.
  destruct (users db !! i); cbn; [destruct (i =? 0)|]; reflexivity.
Qed.

Lemma delete_todo_served db i :
  snd (delete_todo None db i)
  = match todos db !! i with
    | Some _ =>
        if i =? 0 then Raise (HTTPException 404 "Задача с указанным id не найдена")
        else Return [("message", "Задача успешно удалена")]
    | None => Raise (HTTPException 404 "Задача с указанным id не найдена")
    end.
Proof. unfold delete_todo. cbn.
  destruct (todos db !! i); cbn; [destruct (i =? 0)|]; reflexivity.
Qed.

(** How a result that is a success for a present row and a non-zero id, and
    one fixed failure otherwise, is told apart. *)
Lemma hit_or_miss {A R} (row : option A) (i : Z) (ok : R) (ko : exn) :
  let res := match row with
             | Some _ => if i =? 0 then Raise ko else Return ok
             | None => Raise ko
             end in
  (res = Return ok <-> is_Some row /\ i <> 0)
  /\ (res = Raise ko <-> row = None \/ i = 0).
Proof.
  cbn. destruct row as [x|]; [destruct (Z.eqb_spec i 0) as [Hz|Hz]|]; split; split.
  - discriminate.
  - by intros [_ Hne].
  - intros _. by right.
  - done.
  - intros _. split; [by exists x | done].
  - done.
  - discriminate.
  - intros [Hx | Hx]; [discriminate | done].
  - discriminate.
  - intros [Hx _]. by destruct Hx.
  - intros _. by left.
  - done.
Qed.

(** X7: served by the store, an update succeeds exactly when a row with
    that id exists and the id is not 0, and raises the 404 exception exactly
    when no such row exists or the id is 0; for users and for todos. *)
Theorem update_succeeds_iff db (i : Z) (user : UserCreate.t) (todo : Todo.t) :
  (snd (update_user None db i user)
     = Return (UserReturn.mk i (UserBase.username user) (UserBase.email user))
     <-> is_Some (users db !! i) /\ i <> 0)
  /\ (snd (update_user None db i user) = user_not_found
     <-> users db !! i = None \/ i = 0)
  /\ (snd (update_todo None db i todo)
     = Return (TodoReturn.mk i (Todo.title todo) (Todo.description todo)
                             (Todo.is_complited todo))
     <-> is_Some (todos db !! i) /\ i <> 0)
  /\ (snd (update_todo None db i todo) = todo_not_found
     <-> todos db !! i = None \/ i = 0).
Proof.
  rewrite update_user_served, update_todo_served.
  split; [|split]; [apply hit_or_miss .. |]. apply hit_or_miss.
Qed.

(** X8: served by the store, a deletion succeeds exactly when a row with
    that id exists and the id is not 0, and raises the 404 exception exactly
    when no such row exists or the id is 0; for users and for todos. *)
Theorem delete_succeeds_iff db (i : Z) :
  (snd (delete_user None db i) = Return [("message", "Пользователь успешно удален")]
     <-> is_Some (users db !! i) /\ i <> 0)
  /\ (snd (delete_user None db i) = user_not_found
     <-> users db !! i = None \/ i = 0)
  /\ (snd (delete_todo None db i) = Return [("message", "Задача успешно удалена")]
     <-> is_Some (todos db !! i) /\ i <> 0)
  /\ (snd (delete_todo None db i)
      = Raise (HTTPException 404 "Задача с указанным id не найдена")
     <-> todos db !! i = None \/ i = 0).
Proof.
  rewrite delete_user_served, delete_todo_served.
  split; [|split]; [apply hit_or_miss .. |]. apply hit_or_miss.
Qed.

(** X9: served by the store, a read returns a record exactly when a row
    with that id exists, the id 0 included, and the record is the id with the
    columns of that row; for users and for todos. *)
Theorem read_returns_stored_row db (i : Z) :
  (forall r, get_user None db i = Return r
     <-> exists row, users db !! i = Some row
         /\ r = UserReturn.mk i (UserBase.username row) (UserBase.email row))
  /\ (forall r, get_todo None db i = Return r
     <-> exists row, todos db !! i = Some row
         /\ r = TodoReturn.mk i (Todo.title row) (Todo.description row)
                              (Todo.is_complited row)).
Proof.
  split; intros r.
  - destruct (users db !! i) as [row|] eqn:H.
    + rewrite (get_user_hit _ _ _ H). split.
      * intros [= <-]. eauto.
      * intros (row' & [= <-] & ->). done.
    + rewrite (get_user_miss _ _ H). split; [discriminate | by intros (? & ? & _)].
  - destruct (todos db !! i) as [row|] eqn:H.
    + rewrite (get_todo_hit _ _ _ H). split.
      * intros [= <-]. eauto.
      * intros (row' & [= <-] & ->). done.
    + rewrite (get_todo_miss _ _ H). split; [discriminate | by intros (? & ? & _)].
Qed.

(** X10: whatever the driver does, an update or a deletion of the user [i]
    leaves every other user row, the todos and both sequences as they were,
    and an update or a deletion of the todo [i] leaves every other todo row,
    the users and both sequences as they were. *)
Theorem write_touches_one_row fault db (i j : Z) (user : UserCreate.t) (todo : Todo.t) :
  j <> i ->
  (users (fst (update_user fault db i user)) !! j = users db !! j
   /\ users_id_seq (fst (update_user fault db i user)) = users_id_seq db
   /\ same_todos db (fst (update_user fault db i user)))
  /\ (users (fst (delete_user fault db i)) !! j = users db !! j
   /\ users_id_seq (fst (delete_user fault db i)) = users_id_seq db
   /\ same_todos db (fst (delete_user fault db i)))
  /\ (todos (fst (update_todo fault db i todo)) !! j = todos db !! j
   /\ todos_id_seq (fst (update_todo fault db i todo)) = todos_id_seq db
   /\ same_users db (fst (update_todo fault db i todo)))
  /\ (todos (fst (delete_todo fault db i)) !! j = todos db !! j
   /\ todos_id_seq (fst (delete_todo fault db i)) = todos_id_seq db
   /\ same_users db (fst (delete_todo fault db i))).
Proof.
  intros Hne. unfold update_user, delete_user, update_todo, delete_todo, same_todos, same_users.
  destruct fault as [msg|]; cbn; [done|].
  destruct (users db !! i), (todos db !! i); cbn;
    rewrite ?lookup_insert_ne, ?lookup_delete_ne by done; done.
Qed.

Lemma write_touches_one_row_witness :
  (2 <> 1)
  /\ users (fst (delete_user None (mkTables {[1 := alice; 2 := UserBase.mk "bob" "b@example.com"]} 3 ∅ 1) 1)) !! 2
     = Some (UserBase.mk "bob" "b@example.com").
Proof.
  assert (H : 2 <> 1) by lia.
  split; [exact H|].
  rewrite (proj1 (proj1 (proj2 (write_touches_one_row None
             (mkTables {[1 := alice; 2 := UserBase.mk "bob" "b@example.com"]} 3 ∅ 1)
             1 2 alice (Todo.mk "t" "d" false) H)))).
  reflexivity.
Defined.

(** X11: whatever the driver does and whether the insertion succeeds or is
    refused, [create_user] keeps every user row the store held and leaves the
    todos alone, and [create_todo] keeps every todo row and leaves the users
    alone: a creation never overwrites a row. *)
Theorem create_keeps_rows fault db (j : Z) (user : UserCreate.t) (todo : Todo.t) :
  (forall row, users db !! j = Some row ->
     users (fst (create_user fault db user)) !! j = Some row)
  /\ same_todos db (fst (create_user fault db user))
  /\ (forall row, todos db !! j = Some row ->
     todos (fst (create_todo fault db todo)) !! j = Some row)
  /\ same_users db (fst (create_todo fault db todo)).
Proof.
  unfold create_user, create_todo, same_todos, same_users.
  destruct fault as [msg|]; cbn; [done|].
  destruct (users db !! users_id_seq db) eqn:Hu, (todos db !! todos_id_seq db) eqn:Ht; cbn;
    repeat split; try done; intros row Hrow;
    (rewrite lookup_insert_ne; [done | congruence]).
Qed.

Lemma create_keeps_rows_witness :
  users (mkTables {[1 := alice]} 2 ∅ 1) !! 1 = Some alice
  /\ users (fst (create_user None (mkTables {[1 := alice]} 2 ∅ 1)
                   (UserBase.mk "bob" "b@example.com"))) !! 1 = Some alice.
Proof.
  assert (H : users (mkTables {[1 := alice]} 2 ∅ 1) !! 1 = Some alice) by reflexivity.
  split; [exact H|].
  exact (proj1 (create_keeps_rows None (mkTables {[1 := alice]} 2 ∅ 1) 1
                  (UserBase.mk "bob" "b@example.com") (Todo.mk "t" "d" false)) alice H).
Defined.

(** X12: after a successful deletion, deleting the same id again raises the
    404 exception and changes nothing; for users and for todos. *)
Theorem delete_twice_is_not_found :
  (forall fault db i db' body,
     delete_user fault db i = (db', Return body) ->
     delete_user None db' i = (db', user_not_found))
  /\ (forall fault db i db' body,
     delete_todo fault db i = (db', Return body) ->
     delete_todo None db' i
     = (db', Raise (HTTPException 404 "Задача с указанным id не найдена"))).
Proof.
  split; intros fault db i db' body H.
  - apply delete_user_return in H as (_ & _ & ->).
    unfold delete_user. rewrite execute_delete_users_miss; [done|].
    cbn. apply lookup_delete_eq.
  - apply delete_todo_return in H as (_ & _ & ->).
    unfold delete_todo. rewrite execute_delete_todos_miss; [done|].
    cbn. apply lookup_delete_eq.
Qed.

Lemma delete_twice_is_not_found_witness :
  delete_user None (mkTables {[1 := alice]} 2 ∅ 1) 1
  = (mkTables ∅ 2 ∅ 1, Return [("message", "Пользователь успешно удален")])
  /\ delete_user None (mkTables ∅ 2 ∅ 1) 1 = (mkTables ∅ 2 ∅ 1, user_not_found).
Proof.
  assert (H : delete_user None (mkTables {[1 := alice]} 2 ∅ 1) 1
              = (mkTables ∅ 2 ∅ 1, Return [("message", "Пользователь успешно удален")]))
    by reflexivity.
  split; [exact H|]. exact (proj1 delete_twice_is_not_found None _ 1 _ _ H).
Defined.

(** X13: repeating a successful update with the same fields gives the same
    response and leaves the store as the first update left it; for users and
    for todos. *)
Theorem update_twice_is_same :
  (forall fault db i user db' r,
     update_user fault db i user = (db', Return r) ->
     update_user None db' i user = (db', Return r))
  /\ (forall fault db i todo db' r,
     update_todo fault db i todo = (db', Return r) ->
     update_todo None db' i todo = (db', Return r)).
Proof.
  split; intros fault db i x db' r H.
  - apply update_user_return in H as (Hne & _ & -> & ->).
    destruct x as [u e]. unfold update_user.
    erewrite execute_update_users_hit by (cbn; apply lookup_insert_eq).
    cbn. apply Z.eqb_neq in Hne. rewrite Hne. cbn.
    unfold set_users. cbn. by rewrite insert_insert_eq.
  - apply update_todo_return in H as (Hne & _ & -> & ->).
    destruct x as [t d c]. unfold update_todo.
    erewrite execute_update_todos_hit by (cbn; apply lookup_insert_eq).
    cbn. apply Z.eqb_neq in Hne. rewrite Hne. cbn.
    unfold set_todos. cbn. by rewrite insert_insert_eq.
Qed.

Lemma update_twice_is_same_witness :
  update_user None (mkTables {[1 := alice]} 2 ∅ 1) 1 (UserBase.mk "bob" "b@example.com")
  = (mkTables {[1 := UserBase.mk "bob" "b@example.com"]} 2 ∅ 1,
     Return (UserReturn.mk 1 "bob" "b@example.com"))
  /\ update_user None (mkTables {[1 := UserBase.mk "bob" "b@example.com"]} 2 ∅ 1) 1
       (UserBase.mk "bob" "b@example.com")
     = (mkTables {[1 := UserBase.mk "bob" "b@example.com"]} 2 ∅ 1,
        Return (UserReturn.mk 1 "bob" "b@example.com")).
Proof.
  assert (H : update_user None (mkTables {[1 := alice]} 2 ∅ 1) 1
                (UserBase.mk "bob" "b@example.com")
              = (mkTables {[1 := UserBase.mk "bob" "b@example.com"]} 2 ∅ 1,
                 Return (UserReturn.mk 1 "bob" "b@example.com")))
    by reflexivity.
  split; [exact H|]. exact (proj1 update_twice_is_same None _ 1 _ _ _ H).
Defined.

(** ** Further properties of the validators *)

(** X14: the field [message] validates exactly when the message has 10 to
    500 characters and no block-listed stem with a letter behind it.  The
    length is checked first: a message that is too short or too long gets the
    length error even when it holds a forbidden word, and only a message of
    admissible length gets the error of the content filter. *)
Theorem feedback_message_exact (data : list Z) :
  (Feedback.message data = Valid data
     <-> (10 <= length data <= 500)%nat /\ ~ stem_then_letter data)
  /\ ((length data < 10)%nat ->
      Feedback.message data = Invalid [mkError "message" "string_too_short"])
  /\ ((500 < length data)%nat ->
      Feedback.message data = Invalid [mkError "message" "string_too_long"])
  /\ ((10 <= length data <= 500)%nat -> stem_then_letter data ->
      Feedback.message data = Invalid [mkError "message" "value_error"]).
Proof.
  unfold Feedback.message.
  destruct (Nat.ltb_spec (length data) 10) as [Hlo|Hlo];
    [|destruct (Nat.ltb_spec 500 (length data)) as [Hhi|Hhi]].
  - intuition (try done; try lia).
  - intuition (try done; try lia).
  - destruct (validate_message_cases data) as [[Hs ->] | [Hno ->]];
      intuition (try done; try lia).
Qed.

Lemma feedback_message_exact_witness :
  (length (chars "редиска") < 10)%nat
  /\ Feedback.message (chars "редиска") = Invalid [mkError "message" "string_too_short"].
Proof.
  assert (H : (length (chars "редиска") < 10)%nat) by (vm_compute; lia).
  split; [exact H|].
  exact (proj1 (proj2 (feedback_message_exact (chars "редиска"))) H).
Defined.

Lemma tolower_cases x :
  (65 <= x <= 90 /\ unicode_tolower x = x + 32)
  \/ (1040 <= x <= 1071 /\ unicode_tolower x = x + 32)
  \/ (1024 <= x <= 1039 /\ unicode_tolower x = x + 80)
  \/ (~ 65 <= x <= 90 /\ ~ 1024 <= x <= 1071 /\ unicode_tolower x = x).
Proof.
  unfold unicode_tolower.
  destruct (Z.leb_spec 65 x), (Z.leb_spec x 90); cbn; try lia;
    destruct (Z.leb_spec 1040 x), (Z.leb_spec x 1071); cbn; try lia;
    destruct (Z.leb_spec 1024 x), (Z.leb_spec x 1039); cbn; lia.
Qed.

Lemma tolower_idem x : unicode_tolower (unicode_tolower x) = unicode_tolower x.
Proof.
  destruct (tolower_cases x) as [[? Hx] | [[? Hx] | [[? Hx] | (? & ? & Hx)]]];
    rewrite Hx;
    destruct (tolower_cases (x + 32)) as [[? Hy] | [[? Hy] | [[? Hy] | (? & ? & Hy)]]];
    destruct (tolower_cases (x + 80)) as [[? Hz] | [[? Hz] | [[? Hz] | (? & ? & Hz)]]];
    lia.
Qed.

Lemma same_letter_tolower c x : same_letter c (unicode_tolower x) <-> same_letter c x.
Proof. unfold same_letter, lit_match. by rewrite tolower_idem. Qed.

Lemma cyr_letter_tolower x : cyr_letter (unicode_tolower x) <-> cyr_letter x.
Proof.
  unfold cyr_letter.
  destruct (tolower_cases x) as [[? Hx] | [[? Hx] | [[? Hx] | (? & ? & Hx)]]];
    rewrite Hx; lia.
Qed.

Lemma is_stem_tolower w : is_stem (map unicode_tolower w) <-> is_stem w.
Proof.
  unfold is_stem. split; intros (st & Hin & Hw); exists st; (split; [done|]).
  - clear Hin. revert st Hw. induction w as [|x w IH]; intros st Hw; cbn in Hw.
    + inversion Hw. constructor.
    + inversion Hw as [|c y st' w' Hc Hrest]; subst. constructor.
      * by apply same_letter_tolower.
      * by apply IH.
  - clear Hin. induction Hw as [|c x st' w' Hc _ IH]; cbn; constructor.
    + by apply same_letter_tolower.
    + done.
Qed.

Lemma stem_then_letter_tolower data :
  stem_then_letter (map unicode_tolower data) <-> stem_then_letter data.
Proof.
  split.
  - intros (pre & w & c & post & Heq & Hw & Hc).
    apply map_eq_app in Heq as (pre' & rest & -> & <- & Hrest).
    apply map_eq_app in Hrest as (w' & rest' & -> & <- & Hrest').
    apply map_eq_cons in Hrest' as (c' & post' & -> & <- & <-).
    exists pre', w', c', post'. split; [done|]. split.
    + by apply is_stem_tolower.
    + by apply cyr_letter_tolower.
  - intros (pre & w & c & post & -> & Hw & Hc).
    exists (map unicode_tolower pre), (map unicode_tolower w),
      (unicode_tolower c), (map unicode_tolower post).
    split; [by rewrite !map_app|]. split.
    + by apply is_stem_tolower.
    + by apply cyr_letter_tolower.
Qed.

(** X15: the content filter takes no account of case: the message is
    refused exactly when the message with its capital letters replaced by
    small ones is refused. *)
Theorem filter_ignores_case (data : list Z) :
  Feedback.validate_message (map unicode_tolower data)
    = Raise (Exception "Использование недопустимых слов")
  <-> Feedback.validate_message data
      = Raise (Exception "Использование недопустимых слов").
Proof.
  destruct (validate_message_cases data) as [[Hs ->] | [Hno ->]];
    destruct (validate_message_cases (map unicode_tolower data)) as [[Hs' ->] | [Hno' ->]];
    try done.
  - destruct Hno'. by apply stem_then_letter_tolower.
  - destruct Hno. by apply stem_then_letter_tolower.
Qed.

Lemma str_field_valid body name s :
  str_field body name = Valid s <-> body !! name = Some (JStr s).
Proof.
  unfold str_field. destruct (body !! name) as [[| | |s']|]; split; try done.
  - by intros [= ->].
  - by intros [= ->].
Qed.

Lemma str_field_invalid body name :
  (forall s, body !! name <> Some (JStr s)) ->
  exists ty, str_field body name = Invalid [mkError name ty].
Proof.
  intros Hno. unfold str_field. destruct (body !! name) as [[| | |s]|]; eauto.
  by destruct (Hno s).
Qed.

(** X16: a body validates against [UserCreate] exactly when [username] and
    [email] are both JSON strings, and the validated user holds these two
    strings as they are; when neither is a string, both fields are reported,
    [username] first. *)
Theorem user_validation_exact (body : gmap string json) :
  (forall u e, UserCreate_validate body = Valid (UserBase.mk u e)
     <-> body !! "username" = Some (JStr u) /\ body !! "email" = Some (JStr e))
  /\ ((forall s, body !! "username" <> Some (JStr s)) ->
      (forall s, body !! "email" <> Some (JStr s)) ->
      exists tu te, UserCreate_validate body
                    = Invalid [mkError "username" tu; mkError "email" te]).
Proof.
  split.
  - intros u e. rewrite <- !str_field_valid. unfold UserCreate_validate.
    destruct (str_field body "username") as [u'|eu], (str_field body "email") as [e'|ee];
      split; try done.
    + by intros [= -> ->].
    + by intros [[= ->] [= ->]].
    + by intros [_ ?].
    + by intros [? _].
    + by intros [? _].
  - intros Hu He.
    destruct (str_field_invalid body "username" Hu) as [tu Htu].
    destruct (str_field_invalid body "email" He) as [te Hte].
    exists tu, te. unfold UserCreate_validate. by rewrite Htu, Hte.
Qed.

Lemma user_validation_exact_witness :
  (forall s, (∅ : gmap string json) !! "username" <> Some (JStr s))
  /\ (forall s, (∅ : gmap string json) !! "email" <> Some (JStr s))
  /\ exists tu te, UserCreate_validate ∅
                   = Invalid [mkError "username" tu; mkError "email" te].
Proof.
  assert (Hu : forall s, (∅ : gmap string json) !! "username" <> Some (JStr s))
    by (intros s; vm_compute; discriminate).
  assert (He : forall s, (∅ : gmap string json) !! "email" <> Some (JStr s))
    by (intros s; vm_compute; discriminate).
  split; [exact Hu|]. split; [exact He|].
  exact (proj2 (user_validation_exact ∅) Hu He).
Defined.

(** X17: a todo body with a title and a description and no [is_complited]
    validates with the flag [False], and [POST /todos/], served by a store
    whose next id is free, stores the todo with the flag false and answers
    200 with the flag false. *)
Theorem todo_flag_defaults_to_false (body : gmap string json) (t d : string) :
  body !! "title" = Some (JStr t) ->
  body !! "description" = Some (JStr d) ->
  body !! "is_complited" = None ->
  Todo_validate body = Valid (Todo.mk t d false)
  /\ forall db, todos db !! todos_id_seq db = None ->
       post_todos None db body
       = (next_todos_id (set_todos (insert (todos_id_seq db) (Todo.mk t d false)) db),
          Content 200 (TodoReturn.mk (todos_id_seq db) t d false)).
Proof.
  intros Ht Hd Hc.
  assert (Hv : Todo_validate body = Valid (Todo.mk t d false)).
  { unfold Todo_validate, str_field, bool_field. by rewrite Ht, Hd, Hc. }
  split; [exact Hv|]. intros db Hfree.
  unfold post_todos. rewrite Hv. unfold create_todo. cbn. by rewrite Hfree.
Qed.

Lemma todo_flag_defaults_to_false_witness :
  Todo_validate {[ "title" := JStr "milk"; "description" := JStr "two litres" ]}
  = Valid (Todo.mk "milk" "two litres" false).
Proof.
  exact (proj1 (todo_flag_defaults_to_false
                  {[ "title" := JStr "milk"; "description" := JStr "two litres" ]}
                  "milk" "two litres" eq_refl eq_refl eq_refl)).
Defined.

(** X18: whatever decimal digits the pattern engine knows, a phone that is
    shorter than 7 characters, longer than 15, or holds a character that is
    not one of these decimal digits (a sign, a blank, a line end) is refused
    with a pattern error. *)
Theorem phone_rejects (digit : Z -> bool) (s : list Z) :
  (length s < 7)%nat \/ (15 < length s)%nat \/ (exists x, In x s /\ digit x = false) ->
  Contact.phone digit (Some s) = Invalid [mkError "phone" "string_pattern_mismatch"].
Proof.
  intros H.
  destruct (phone_given digit s) as [[[Hlen Hall] _] | [_ ->]]; [|done].
  destruct H as [H | [H | (x & Hx & Hd)]]; [lia | lia |].
  rewrite List.Forall_forall in Hall. specialize (Hall x Hx). congruence.
Qed.

Lemma phone_rejects_witness :
  (exists x, In x (chars "+1234567") /\ is_digit x = false)
  /\ Contact.phone is_digit (Some (chars "+1234567"))
     = Invalid [mkError "phone" "string_pattern_mismatch"].
Proof.
  assert (H : exists x, In x (chars "+1234567") /\ is_digit x = false).
  { exists 43. split; [by left | reflexivity]. }
  split; [exact H|].
  exact (phone_rejects is_digit (chars "+1234567") (or_intror (or_intror H))).
Defined.

(** X19: whatever the body, the store and the driver, [POST /users/] and
    [POST /todos/] answer with status 200, 422 or 500 and never 404, and
    [PUT /users/{id}] and [PUT /todos/{id}] answer with status 200, 404, 422
    or 500. *)
Theorem endpoint_statuses fault db (i : Z) (body : gmap string json) :
  In (status (snd (post_users fault db body))) [200; 422; 500]
  /\ In (status (snd (put_users fault db i body))) [200; 404; 422; 500]
  /\ In (status (snd (post_todos fault db body))) [200; 422; 500]
  /\ In (status (snd (put_todos fault db i body))) [200; 404; 422; 500].
Proof.
  unfold post_users, put_users, post_todos, put_todos,
    create_user, update_user, create_todo, update_todo.
  destruct (UserCreate_validate body) as [user|eu], (Todo_validate body) as [todo|et];
    destruct fault as [msg|]; cbn;
    destruct (users db !! users_id_seq db), (todos db !! todos_id_seq db),
      (users db !! i), (todos db !! i); simpl;
    destruct (i =? 0); simpl; intuition.
Qed.
